(** * Crown-boundary ingestion pipeline of canopy.app

    A shallow embedding of [src/lib/utils/shapefileLoader.ts]: the
    Sutherland-Hodgman rectangle clipper ([clipEdge], [clipPolygonToBounds]),
    the pixel projector ([projectToPixels]) and the loader
    ([loadCrownShapefile], [loadGeometryOnly]).

    Numbers.  A JavaScript [number] is modelled by an exact rational [Q]:
    rounding is left out, which is the reading of "within floating-point
    tolerance" taken here, and only finite values exist.  A division is
    written with [Qdiv]; the calls of the clipper are shown to have a
    nonzero divisor (see [intersect_calls]), so the convention of [Qdiv] at
    zero is never observed there.

    Promises.  An awaited promise is modelled by its settlement, a
    [result]: [Fulfilled v] or [Rejected e].  The network and the external
    [shapefile] package are inputs, gathered in an [Env]. *)

From Stdlib Require Import List Bool Arith Lia ZArith QArith Qround Lqa String
  Ascii HexadecimalString.
Import ListNotations.

Local Open Scope Q_scope.

(** * Definitions *)

(** ** Data model *)

(** A point [[x, y]] of a ring. *)
Definition point : Type := (Q * Q)%type.

(** A ring: [number[][]]. *)
Definition ring : Type := list point.

(** [interface Bounds]. *)
Record Bounds : Type := mkBounds {
  minX : Q;
  minY : Q;
  maxX : Q;
  maxY : Q
}.

(** ** Rectangle clipper *)

Section ClipEdge.

Variable inside : point -> bool.
Variable intersect : point -> point -> point.

(** The mutable locals of the [for] loop of [clipEdge]. *)
Record LoopState : Type := mkLoop {
  output : ring;
  prev : point;
  prevInside : bool
}.

(** [output.push(p)]. *)
Definition push (out : ring) (p : point) : ring := out ++ [p].

(** One iteration of [for (const curr of polygon)]. *)
Definition clipStep (st : LoopState) (curr : point) : LoopState :=
  let currInside := inside curr in
  let out :=
    if currInside then
      push (if negb (prevInside st)
            then push (output st) (intersect (prev st) curr)
            else output st) curr
    else if prevInside st then push (output st) (intersect (prev st) curr)
    else output st in
  mkLoop out curr currInside.

(** [function clipEdge(polygon, inside, intersect)]. *)
Definition clipEdge (polygon : ring) : ring :=
  match polygon with
  | [] => []
  | first :: _ =>
      let prev0 := last polygon first in
      output (fold_left clipStep polygon (mkLoop [] prev0 (inside prev0)))
  end.

(** The vertices emitted for [curr], given the previous vertex. *)
Definition emitted (p : point) (pIn : bool) (curr : point) : ring :=
  if inside curr then
    (if negb pIn then [intersect p curr] else []) ++ [curr]
  else if pIn then [intersect p curr] else [].

(** The loop without its accumulator. *)
Fixpoint walk (p : point) (pIn : bool) (rest : ring) : ring :=
  match rest with
  | [] => []
  | curr :: rest' => emitted p pIn curr ++ walk curr (inside curr) rest'
  end.

(** The argument pairs of the calls of [intersect], in call order. *)
Definition called (p : point) (pIn : bool) (curr : point)
  : list (point * point) :=
  if inside curr then (if negb pIn then [(p, curr)] else [])
  else if pIn then [(p, curr)] else [].

Fixpoint walk_calls (p : point) (pIn : bool) (rest : ring)
  : list (point * point) :=
  match rest with
  | [] => []
  | curr :: rest' => called p pIn curr ++ walk_calls curr (inside curr) rest'
  end.

Definition clipEdge_calls (polygon : ring) : list (point * point) :=
  match polygon with
  | [] => []
  | first :: _ =>
      let prev0 := last polygon first in
      walk_calls prev0 (inside prev0) polygon
  end.

End ClipEdge.

(** The four [inside] predicates and [intersect] functions of
    [clipPolygonToBounds]; [x >= b] is [Qle_bool b x]. *)
Definition insideLeft (bounds : Bounds) (pt : point) : bool :=
  let '(x, y) := pt in Qle_bool (minX bounds) x.

Definition intersectLeft (bounds : Bounds) (a b : point) : point :=
  let '(x1, y1) := a in
  let '(x2, y2) := b in
  let t := (minX bounds - x1) / (x2 - x1) in
  (minX bounds, y1 + t * (y2 - y1)).

Definition insideRight (bounds : Bounds) (pt : point) : bool :=
  let '(x, y) := pt in Qle_bool x (maxX bounds).

Definition intersectRight (bounds : Bounds) (a b : point) : point :=
  let '(x1, y1) := a in
  let '(x2, y2) := b in
  let t := (maxX bounds - x1) / (x2 - x1) in
  (maxX bounds, y1 + t * (y2 - y1)).

Definition insideBottom (bounds : Bounds) (pt : point) : bool :=
  let '(x, y) := pt in Qle_bool (minY bounds) y.

Definition intersectBottom (bounds : Bounds) (a b : point) : point :=
  let '(x1, y1) := a in
  let '(x2, y2) := b in
  let t := (minY bounds - y1) / (y2 - y1) in
  (x1 + t * (x2 - x1), minY bounds).

Definition insideTop (bounds : Bounds) (pt : point) : bool :=
  let '(x, y) := pt in Qle_bool y (maxY bounds).

Definition intersectTop (bounds : Bounds) (a b : point) : point :=
  let '(x1, y1) := a in
  let '(x2, y2) := b in
  let t := (maxY bounds - y1) / (y2 - y1) in
  (x1 + t * (x2 - x1), maxY bounds).

(** [function clipPolygonToBounds(polygon, bounds)]. *)
Definition clipPolygonToBounds (polygon : ring) (bounds : Bounds) : ring :=
  let output := polygon in
  let output := clipEdge (insideLeft bounds) (intersectLeft bounds) output in
  let output := clipEdge (insideRight bounds) (intersectRight bounds) output in
  let output := clipEdge (insideBottom bounds) (intersectBottom bounds) output in
  let output := clipEdge (insideTop bounds) (intersectTop bounds) output in
  output.

(** ** Coordinate projector *)

(** [function projectToPixels(coordinates, imageBounds, imageWidth,
    imageHeight)]; [imageBounds] is [[[minLat, minLon], [maxLat, maxLon]]]
    and the coordinates are [[lon, lat]]. *)
Definition projectToPixels (coordinates : list ring)
    (imageBounds : (Q * Q) * (Q * Q)) (imageWidth imageHeight : Q)
  : list ring :=
  let '(southWest, northEast) := imageBounds in
  let '(minLat, minLon) := southWest in
  let '(maxLat, maxLon) := northEast in
  map (fun ring =>
         map (fun pt : point =>
                let '(x, y) := pt in
                (((x - minLon) / (maxLon - minLon)) * imageWidth,
                 ((maxLat - y) / (maxLat - minLat)) * imageHeight))
             ring)
      coordinates.

(** ** Strings *)

Local Open Scope string_scope.

(** The string left after its first [n] characters. *)
Fixpoint skip (n : nat) (s : string) : string :=
  match n, s with
  | O, _ => s
  | S n', String _ s' => skip n' s'
  | S _, EmptyString => EmptyString
  end.

(** [s.replace(pattern, replacement)] with a string pattern: the first
    occurrence of [pattern] in [s], if there is one, is replaced. *)
Fixpoint replace (pattern replacement s : string) : string :=
  if prefix pattern s then replacement ++ skip (String.length pattern) s
  else match s with
       | EmptyString => EmptyString
       | String c s' => String c (replace pattern replacement s')
       end.

(** [pattern] occurs in [s] after [pre], and nowhere earlier. *)
Definition firstOccurrence (pattern pre post s : string) : Prop :=
  s = pre ++ pattern ++ post
  /\ forall pre' post',
       s = pre' ++ pattern ++ post' ->
       (String.length pre <= String.length pre')%nat.

(** [pattern] occurs somewhere in [s]. *)
Fixpoint occursb (pattern s : string) : bool :=
  prefix pattern s
  || match s with
     | EmptyString => false
     | String _ s' => occursb pattern s'
     end.

(** ** Promises, decoded features and the loader *)

(** What a rejected promise carries. *)
Inductive exn : Type :=
  | LoadFailed (status : Z)       (* [new Error(`Failed to load shapefile: ...`)] *)
  | HostError (message : string). (* raised by [fetch], a body read or the decoder *)

(** The settlement of a promise. *)
Inductive result (A : Type) : Type :=
  | Fulfilled (value : A)
  | Rejected (reason : exn).
Arguments Fulfilled {A} value.
Arguments Rejected {A} reason.

(** [await p; k]: a rejection leaves the enclosing block. *)
Definition bind {A B : Type} (p : result A) (k : A -> result B) : result B :=
  match p with
  | Fulfilled v => k v
  | Rejected e => Rejected e
  end.

Notation "x <- p ;; k" := (bind p (fun x => k))
  (at level 61, p at next level, right associativity).
Notation "' pat <- p ;; k" := (bind p (fun x => let pat := x in k))
  (at level 61, pat pattern, p at next level, right associativity).

(** [Promise.all([a, b])]; when both reject, the reason kept is the one of
    the first of the two, the reason is only logged by the caller. *)
Definition Promise_all {A B : Type} (a : result A) (b : result B)
  : result (A * B) :=
  match a, b with
  | Fulfilled x, Fulfilled y => Fulfilled (x, y)
  | Rejected e, _ => Rejected e
  | _, Rejected e => Rejected e
  end.

Definition ArrayBuffer : Type := list Z.

(** An attribute value and an attribute record. *)
Inductive scalar : Type :=
  | SNull
  | SNumber (q : Q)
  | SString (s : string).

Definition Properties : Type := list (string * scalar).

(** The geometry of a decoded feature: one of [type] ['Polygon'] with its
    rings, or one of another [type]. *)
Inductive Geometry : Type :=
  | Polygon (coordinates : list ring)
  | OtherGeometry (type : string).

Record Feature : Type := mkFeature {
  geometry : option Geometry;             (* may be [null] *)
  feature_properties : option Properties  (* may be [null] *)
}.

Record FeatureCollection : Type := mkCollection {
  features : list Feature
}.

(** [interface CrownPolygon]. *)
Record CrownPolygon : Type := mkCrown {
  type : string;
  coordinates : list ring;
  properties : Properties
}.

(** A [Response] of [fetch]. *)
Record Response : Type := mkResponse {
  ok : bool;
  status : Z;
  arrayBuffer : result ArrayBuffer
}.

(** The world of the loader: the network and the [shapefile] package. *)
Record Env : Type := mkEnv {
  fetch : string -> result Response;
  shapefile_read : ArrayBuffer -> option ArrayBuffer -> result FeatureCollection
}.

(** The rings of a feature after clipping: [.map(...).filter(...)]. *)
Definition croppedCoords (coords : list ring) (bounds : Bounds) : list ring :=
  filter (fun ring => (2 <? List.length ring)%nat)
         (map (fun ring => clipPolygonToBounds ring bounds) coords).

(** The [forEach] callback of [loadCrownShapefile]. *)
Definition pushCrown (bounds : Bounds) (crowns : list CrownPolygon)
    (feature : Feature) : list CrownPolygon :=
  match geometry feature with
  | Some (Polygon coords) =>
      let cropped := croppedCoords coords bounds in
      if (0 <? List.length cropped)%nat then
        crowns ++ [mkCrown "Polygon" cropped
                     (match feature_properties feature with
                      | Some props => props
                      | None => []
                      end)]
      else crowns
  | _ => crowns
  end.

(** The [forEach] callback of [loadGeometryOnly]. *)
Definition pushCrownGeometryOnly (bounds : Bounds)
    (crowns : list CrownPolygon) (feature : Feature) : list CrownPolygon :=
  match geometry feature with
  | Some (Polygon coords) =>
      let cropped := croppedCoords coords bounds in
      if (0 <? List.length cropped)%nat then
        crowns ++ [mkCrown "Polygon" cropped []]
      else crowns
  | _ => crowns
  end.

(** [async function loadGeometryOnly(shpBuffer, bounds)]. *)
Definition loadGeometryOnly (env : Env) (shpBuffer : ArrayBuffer)
    (bounds : Bounds) : result (list CrownPolygon) :=
  collection <- shapefile_read env shpBuffer None ;;
  Fulfilled (fold_left (pushCrownGeometryOnly bounds) (features collection) []).

(** [shapefilePath.replace('.shp', '.dbf')]. *)
Definition dbfPathOf (shapefilePath : string) : string :=
  replace ".shp" ".dbf" shapefilePath.

(** The [try] block of [loadCrownShapefile].  Its outcome is a rejection
    raised inside the block, or the promise handed to [return]: what
    [return crowns] hands over is already fulfilled, what
    [return loadGeometryOnly(...)] hands over is not awaited within the
    block. *)
Definition loadAttempt (env : Env) (shapefilePath : string) (bounds : Bounds)
  : result (result (list CrownPolygon)) :=
  let shpPath := shapefilePath in
  let dbfPath := dbfPathOf shapefilePath in
  '(shpResponse, dbfResponse) <-
     Promise_all (fetch env shpPath) (fetch env dbfPath) ;;
  if negb (ok shpResponse) then Rejected (LoadFailed (status shpResponse))
  else if negb (ok dbfResponse) then
    shpBuffer <- arrayBuffer shpResponse ;;
    Fulfilled (loadGeometryOnly env shpBuffer bounds)
  else
    '(shpBuffer, dbfBuffer) <-
       Promise_all (arrayBuffer shpResponse) (arrayBuffer dbfResponse) ;;
    collection <- shapefile_read env shpBuffer (Some dbfBuffer) ;;
    Fulfilled (Fulfilled (fold_left (pushCrown bounds) (features collection) [])).

(** [async function loadCrownShapefile(shapefilePath, bounds)]: the
    [catch] clause answers a rejection of the block with [[]]. *)
Definition loadCrownShapefile (env : Env) (shapefilePath : string)
    (bounds : Bounds) : result (list CrownPolygon) :=
  match loadAttempt env shapefilePath bounds with
  | Fulfilled returned => returned
  | Rejected _ => Fulfilled []
  end.

(** ** Notions used in the statements *)

Local Close Scope string_scope.
Local Open Scope Q_scope.

(** [l1] is [l2] with some elements left out, the others in order. *)
Inductive subseq {A : Type} : list A -> list A -> Prop :=
  | subseq_nil : subseq [] []
  | subseq_skip (x : A) (l1 l2 : list A) : subseq l1 l2 -> subseq l1 (x :: l2)
  | subseq_keep (x : A) (l1 l2 : list A) : subseq l1 l2 -> subseq (x :: l1) (x :: l2).

Create HintDb clip.
#[local] Hint Constructors subseq : clip.

(** The sides of the clip rectangle, in the order of the passes. *)
Inductive Edge : Type := LeftEdge | RightEdge | BottomEdge | TopEdge.

(** The [inside] predicate and the [intersect] function of a side. *)
Definition insideOf (e : Edge) (bounds : Bounds) : point -> bool :=
  match e with
  | LeftEdge => insideLeft bounds
  | RightEdge => insideRight bounds
  | BottomEdge => insideBottom bounds
  | TopEdge => insideTop bounds
  end.

Definition intersectOf (e : Edge) (bounds : Bounds) : point -> point -> point :=
  match e with
  | LeftEdge => intersectLeft bounds
  | RightEdge => intersectRight bounds
  | BottomEdge => intersectBottom bounds
  | TopEdge => intersectTop bounds
  end.

(** The divisor of [t] in the [intersect] function of a side. *)
Definition divisor (e : Edge) (a b : point) : Q :=
  let '(x1, y1) := a in
  let '(x2, y2) := b in
  match e with
  | LeftEdge | RightEdge => x2 - x1
  | BottomEdge | TopEdge => y2 - y1
  end.

(** The ring handed to the pass of a side. *)
Definition inputOf (e : Edge) (polygon : ring) (bounds : Bounds) : ring :=
  let out1 := clipEdge (insideLeft bounds) (intersectLeft bounds) polygon in
  let out2 := clipEdge (insideRight bounds) (intersectRight bounds) out1 in
  let out3 := clipEdge (insideBottom bounds) (intersectBottom bounds) out2 in
  match e with
  | LeftEdge => polygon
  | RightEdge => out1
  | BottomEdge => out2
  | TopEdge => out3
  end.

(** All calls of an [intersect] function during
    [clipPolygonToBounds polygon bounds], with the side, in call order. *)
Definition intersect_calls (polygon : ring) (bounds : Bounds)
  : list (Edge * (point * point)) :=
  flat_map (fun e => map (pair e)
                       (clipEdge_calls (insideOf e bounds)
                                       (inputOf e polygon bounds)))
           [LeftEdge; RightEdge; BottomEdge; TopEdge].

(** The same loop with a division that can fail: [intersect] answers
    [None] instead of dividing by zero; [None] stands for the non-finite
    coordinates that a division by zero gives in JavaScript. *)
Definition clipStepChecked (inside : point -> bool)
    (intersect : point -> point -> option point)
    (st : option LoopState) (curr : point) : option LoopState :=
  match st with
  | None => None
  | Some st =>
      let currInside := inside curr in
      if currInside then
        if negb (prevInside st) then
          match intersect (prev st) curr with
          | Some i => Some (mkLoop (push (push (output st) i) curr)
                                   curr currInside)
          | None => None
          end
        else Some (mkLoop (push (output st) curr) curr currInside)
      else if prevInside st then
        match intersect (prev st) curr with
        | Some i => Some (mkLoop (push (output st) i) curr currInside)
        | None => None
        end
      else Some (mkLoop (output st) curr currInside)
  end.

(** [clipEdge] over [clipStepChecked]. *)
Definition clipEdgeChecked (inside : point -> bool)
    (intersect : point -> point -> option point) (polygon : ring)
  : option ring :=
  match polygon with
  | [] => Some []
  | first :: _ =>
      let prev0 := last polygon first in
      option_map output
        (fold_left (clipStepChecked inside intersect) polygon
                   (Some (mkLoop [] prev0 (inside prev0))))
  end.

(** The [intersect] function of a side, failing on a zero divisor. *)
Definition intersectChecked (e : Edge) (bounds : Bounds) (a b : point)
  : option point :=
  if Qeq_bool (divisor e a b) 0 then None
  else Some (intersectOf e bounds a b).

(** The four passes of [clipPolygonToBounds] over [clipEdgeChecked]. *)
Definition clipPolygonToBoundsChecked (polygon : ring) (bounds : Bounds)
  : option ring :=
  fold_left (fun out e =>
               match out with
               | Some r => clipEdgeChecked (insideOf e bounds)
                                           (intersectChecked e bounds) r
               | None => None
               end)
            [LeftEdge; RightEdge; BottomEdge; TopEdge] (Some polygon).

(** A point within the clip rectangle, boundary included. *)
Definition within (bounds : Bounds) (pt : point) : Prop :=
  let '(x, y) := pt in
  minX bounds <= x <= maxX bounds /\ minY bounds <= y <= maxY bounds.

(** [within] as the conjunction of the four [inside] predicates. *)
Definition withinb (bounds : Bounds) (pt : point) : bool :=
  insideLeft bounds pt && insideRight bounds pt
  && insideBottom bounds pt && insideTop bounds pt.




(** Where the rings of a crown come from. *)
Definition clippedFrom (bounds : Bounds) (c : CrownPolygon) : Prop :=
  exists coords, coordinates c = croppedCoords coords bounds.

(** ** Sample inputs *)

Definition unitBounds : Bounds := mkBounds 0 0 5 5.

(** The partially overlapping square of the scenarios. *)
Definition overlappingSquare : ring := [(-1, -1); (-1, 1); (1, 1); (1, -1)].

(** The fully contained square of the scenarios. *)
Definition containedSquare : ring := [(1, 1); (1, 2); (2, 2); (2, 1)].

(** A ring left of the rectangle. *)
Definition farSquare : ring := [(-9, 1); (-9, 2); (-8, 2); (-8, 1)].


(** The two resources of the sample networks. *)
Definition shpUrl : string := "crown_outlines.shp".
Definition dbfUrl : string := "crown_outlines.dbf".

(** A network that knows two resources. *)
Definition serving (shp dbf : result Response) (url : string)
  : result Response :=
  if String.eqb url shpUrl then shp
  else if String.eqb url dbfUrl then dbf
  else Rejected (HostError "unreachable").

(** Two responses: 200 with a body, and 404. *)
Definition found (body : ArrayBuffer) : Response :=
  mkResponse true 200 (Fulfilled body).

Definition notFound : Response := mkResponse false 404 (Fulfilled []).

(** An attribute record. *)
Definition oak : Properties := [("species"%string, SString "oak")].

(** Four decoded features: two polygons, a point and a feature without
    geometry. *)
Definition sampleFeatures (props : option Properties) : FeatureCollection :=
  mkCollection
    [mkFeature (Some (Polygon [overlappingSquare; farSquare])) props;
     mkFeature (Some (OtherGeometry "Point")) props;
     mkFeature (Some (Polygon [farSquare])) props;
     mkFeature None props;
     mkFeature (Some (Polygon [containedSquare])) None].

(** A decoder that reads everything. *)
Definition decodeAll (shp : ArrayBuffer) (dbf : option ArrayBuffer)
  : result FeatureCollection :=
  match dbf with
  | Some _ => Fulfilled (sampleFeatures (Some oak))
  | None => Fulfilled (sampleFeatures None)
  end.

(** A decoder that cannot read the attribute buffer. *)
Definition decodeGeometry (shp : ArrayBuffer) (dbf : option ArrayBuffer)
  : result FeatureCollection :=
  match dbf with
  | Some _ => Rejected (HostError "unreadable attribute table")
  | None => Fulfilled (sampleFeatures None)
  end.

(** A decoder that cannot read the geometry buffer. *)
Definition decodeNothing (shp : ArrayBuffer) (dbf : option ArrayBuffer)
  : result FeatureCollection :=
  Rejected (HostError "unreadable geometry").

(** Four worlds: both resources served and decoded; no attribute
    resource; an attribute resource that cannot be decoded; a geometry
    that cannot be decoded and no attribute resource. *)
Definition worldComplete : Env :=
  mkEnv (serving (Fulfilled (found [1%Z])) (Fulfilled (found [2%Z]))) decodeAll.

Definition worldNoAttributes : Env :=
  mkEnv (serving (Fulfilled (found [1%Z])) (Fulfilled notFound)) decodeAll.

Definition worldBadAttributes : Env :=
  mkEnv (serving (Fulfilled (found [1%Z])) (Fulfilled (found [2%Z])))
        decodeGeometry.

Definition worldBadGeometry : Env :=
  mkEnv (serving (Fulfilled (found [1%Z])) (Fulfilled notFound)) decodeNothing.

(** Two points with equal coordinates. *)
Definition samePoint (p q : point) : Prop := fst p == fst q /\ snd p == snd q.

(** The four passes with other [intersect] functions. *)
Definition clipWith (g : Edge -> point -> point -> point)
    (polygon : ring) (bounds : Bounds) : ring :=
  fold_left (fun out e => clipEdge (insideOf e bounds) (g e) out)
            [LeftEdge; RightEdge; BottomEdge; TopEdge] polygon.

(** The pixel pair of a geographic point. *)
Definition pixelOf (imageBounds : (Q * Q) * (Q * Q))
    (imageWidth imageHeight : Q) (pt : point) : point :=
  let '((minLat, minLon), (maxLat, maxLon)) := imageBounds in
  let '(lon, lat) := pt in
  (((lon - minLon) / (maxLon - minLon)) * imageWidth,
   ((maxLat - lat) / (maxLat - minLat)) * imageHeight).

(** The edges of a ring, the closing edge last. *)
Definition closedEdges (r : ring) : list (point * point) :=
  match r with
  | [] => []
  | first :: rest => combine r (rest ++ [first])
  end.



(** The edge crosses the horizontal ray from [q] to the right. *)
Definition crossesRay (q : point) (edge : point * point) : bool :=
  let '((ax, ay), (bx, by_)) := edge in
  let '(qx, qy) := q in
  negb (Bool.eqb (Qle_bool ay qy) (Qle_bool by_ qy))
  && negb (Qle_bool (ax + ((qy - ay) / (by_ - ay)) * (bx - ax)) qx).

(** The ring encloses [q]: an odd number of edges cross the ray. *)
Definition encloses (r : ring) (q : point) : bool :=
  Nat.odd (List.length (filter (crossesRay q) (closedEdges r))).


(** The clipped rings of the polygons of a collection that keep a ring. *)
Definition survivingRings (bounds : Bounds) (fs : list Feature)
  : list (list ring) :=
  filter (fun rings => (0 <? List.length rings)%nat)
         (map (fun f => match geometry f with
                        | Some (Polygon coords) => croppedCoords coords bounds
                        | _ => []
                        end) fs).

(** A network on which the attribute resource cannot be reached. *)
Definition worldUnreachableAttributes : Env :=
  mkEnv (serving (Fulfilled (found [1%Z]))
                 (Rejected (HostError "network failure")))
        decodeAll.

(** ** Further notions on rings *)

(** [l2] is [l1] started at another element. *)
Definition rotation {A : Type} (l1 l2 : list A) : Prop :=
  exists a b, l1 = a ++ b /\ l2 = b ++ a.

(** On one of the four lines that carry the sides of the rectangle. *)
Definition onSideLine (bounds : Bounds) (pt : point) : Prop :=
  fst pt = minX bounds \/ fst pt = maxX bounds
  \/ snd pt = minY bounds \/ snd pt = maxY bounds.

(** The crown [c] holds the clipped rings and the attributes of the
    polygon feature [f]. *)
Definition cameFrom (bounds : Bounds) (c : CrownPolygon) (f : Feature)
  : Prop :=
  exists coords,
    geometry f = Some (Polygon coords)
    /\ coordinates c = croppedCoords coords bounds
    /\ coordinates c <> []
    /\ type c = "Polygon"%string
    /\ properties c = match feature_properties f with
                      | Some props => props
                      | None => []
                      end.


(** ** The viewer

    The script of [src/lib/CanopyViewer.svelte] that calls the loader and
    the projector, chooses the crowns to draw and keeps the slider and the
    selection.  The functions of the host on strings whose result depends
    on Unicode tables or on number formatting are inputs, gathered in a
    [Host]. *)

(** [metadata.web_app_config]; [image_bounds] is
    [[[minLat, minLon], [maxLat, maxLon]]]. *)
Record WebAppConfig : Type := mkWebAppConfig {
  image_bounds : option ((Q * Q) * (Q * Q))
}.

(** [metadata.layers], of which the script of the crowns reads
    [crown_outlines]. *)
Record Layers : Type := mkLayers {
  crown_outlines : option string
}.

(** The metadata document. *)
Record Metadata : Type := mkMetadata {
  species_list : list string;
  layers : option Layers;
  web_app_config : option WebAppConfig
}.

(** [`/${metadata.layers.crown_outlines}`]: reading [crown_outlines] of a
    missing [layers] raises a [TypeError]; a missing [crown_outlines] is
    printed as [undefined]. *)
Definition crownOutlinesPath (md : Metadata) : result string :=
  match layers md with
  | None => Rejected (HostError "TypeError")
  | Some l =>
      Fulfilled (String "/" (match crown_outlines l with
                             | Some path => path
                             | None => "undefined"%string
                             end))
  end.

(** The bounds that [loadCrownData] builds from [image_bounds]. *)
Definition boundsOfImage (ib : (Q * Q) * (Q * Q)) : Bounds :=
  mkBounds (snd (fst ib))   (* minX: image_bounds[0][1], minLon *)
           (fst (fst ib))   (* minY: image_bounds[0][0], minLat *)
           (snd (snd ib))   (* maxX: image_bounds[1][1], maxLon *)
           (fst (snd ib)).  (* maxY: image_bounds[1][0], maxLat *)

(** [async function loadCrownData()], from the variables [metadata] and
    [crownPolygons] to the new value of [crownPolygons]. *)
Definition loadCrownData (env : Env) (metadata : option Metadata)
    (crownPolygons : list CrownPolygon) : result (list CrownPolygon) :=
  match metadata with
  | None => Fulfilled crownPolygons
  | Some md =>
      match web_app_config md with
      | None => Fulfilled crownPolygons
      | Some config =>
          match image_bounds config with
          | None => Fulfilled crownPolygons
          | Some ib =>
              let bounds := boundsOfImage ib in
              match (path <- crownOutlinesPath md ;;
                     loadCrownShapefile env path bounds) with
              | Fulfilled crowns => Fulfilled crowns
              | Rejected _ => Fulfilled crownPolygons
              end
          end
      end
  end.

(** The functions of the host. *)
Record Host : Type := mkHost {
  toLowerCase : string -> string;      (* [String.prototype.toLowerCase] *)
  trim : string -> string;             (* [String.prototype.trim] *)
  numberToString : Q -> string;        (* [Number.prototype.toString] *)
  inheritsProperty : string -> bool;   (* the property names of
                                          [Object.prototype] *)
  parseInt16 : string -> option Z      (* [parseInt(s, 16)]; [None] is
                                          [NaN] *)
}.

(** [properties[key]] on an attribute record. *)
Fixpoint lookup (key : string) (props : Properties) : option scalar :=
  match props with
  | [] => None
  | (k, v) :: rest => if String.eqb k key then Some v else lookup key rest
  end.

(** The value of [mappings[normalized] || normalized]: a string, or what
    the object literal inherits under that name, a function or an object. *)
Inductive Normalized : Type :=
  | NormalString (s : string)
  | Inherited (name : string).

Definition speciesMappings : list (string * string) :=
  [("dead", "dead-understory"); ("understory", "dead-understory");
   ("dead/understory", "dead-understory"); ("lime", "lime spp.");
   ("ssp. oak", "oak"); ("oak ssp.", "oak");
   ("sweet_chestnut", "sweet chestnut"); ("sweet-chestnut", "sweet chestnut");
   ("chestnut", "sweet chestnut")]%string.

(** [mappings[key]] for an own property. *)
Fixpoint mapped (key : string) (mappings : list (string * string))
  : option string :=
  match mappings with
  | [] => None
  | (k, v) :: rest => if String.eqb k key then Some v else mapped key rest
  end.

(** [function normalizeSpeciesName(species)]. *)
Definition normalizeSpeciesName (host : Host) (species : string)
  : Normalized :=
  let normalized := trim host (toLowerCase host species) in
  match mapped normalized speciesMappings with
  | Some v => NormalString v
  | None => if inheritsProperty host normalized then Inherited normalized
            else NormalString normalized
  end.

Definition possibleKeys : list string :=
  ["Species"; "species"; "SPECIES"; "sp"; "Sp"; "SP"; "type"; "Type";
   "class"; "Class"]%string.

(** [value.toString()] of an attribute value that is not [null]. *)
Definition scalarToString (host : Host) (v : scalar) : string :=
  match v with
  | SString s => s
  | SNumber q => numberToString host q
  | SNull => "null"%string
  end.

(** [metadata.species_list.includes(s)], also [selectedSpecies.has(s)]. *)
Definition includes (s : string) (l : list string) : bool :=
  existsb (String.eqb s) l.

(** The [for] loop of [getCrownSpecies] over the keys left. *)
Fixpoint speciesAmong (host : Host) (md : Metadata) (props : Properties)
    (keys : list string) : option string :=
  match keys with
  | [] => None
  | key :: rest =>
      match lookup key props with
      | None | Some SNull => speciesAmong host md props rest
      | Some v =>
          let species := trim host (toLowerCase host (scalarToString host v)) in
          match normalizeSpeciesName host species with
          | NormalString normalizedSpecies =>
              if includes normalizedSpecies (species_list md)
              then Some normalizedSpecies
              else speciesAmong host md props rest
          | Inherited _ => speciesAmong host md props rest
          end
      end
  end.

(** [function getCrownSpecies(properties)]; [None] is [null]. *)
Definition getCrownSpecies (host : Host) (md : Metadata) (props : Properties)
  : option string :=
  speciesAmong host md props possibleKeys.

(** [crownSpecies && selectedSpecies.has(crownSpecies)]: [null] and the
    empty string are falsy. *)
Definition isSelected (selectedSpecies : list string)
    (crownSpecies : option string) : bool :=
  match crownSpecies with
  | None => false
  | Some s => if String.eqb s "" then false else includes s selectedSpecies
  end.

(** [function getFilteredCrownPolygons()]; the set [selectedSpecies] is
    the list of its elements in insertion order. *)
Definition getFilteredCrownPolygons (host : Host) (md : Metadata)
    (selectedSpecies : list string) (crownPolygons : list CrownPolygon)
  : list CrownPolygon :=
  if (List.length selectedSpecies =? 0)%nat then []
  else filter (fun polygon =>
                 isSelected selectedSpecies
                            (getCrownSpecies host md (properties polygon)))
              crownPolygons.

(** *** The selection *)

(** [new Set(list)]: the elements in order of first occurrence. *)
Fixpoint newSet (l : list string) (seen : list string) : list string :=
  match l with
  | [] => seen
  | s :: rest => newSet rest (if includes s seen then seen else seen ++ [s])
  end.

(** [set.delete(s)]. *)
Definition setDelete (s : string) (set : list string) : list string :=
  filter (fun t => negb (String.eqb s t)) set.

(** [set.add(s)]. *)
Definition setAdd (s : string) (set : list string) : list string :=
  if includes s set then set else set ++ [s].

(** [function toggleSpecies(species)]. *)
Definition toggleSpecies (species : string) (selectedSpecies : list string)
  : list string :=
  let copy := selectedSpecies in   (* [new Set(selectedSpecies)] *)
  if includes species copy then setDelete species copy
  else setAdd species copy.

(** [function toggleAllSpecies()]. *)
Definition toggleAllSpecies (metadata : option Metadata)
    (selectedSpecies : list string) : list string :=
  match metadata with
  | Some md =>
      if (List.length selectedSpecies =? List.length (species_list md))%nat
      then []
      else newSet (species_list md) []
  | None => selectedSpecies
  end.

(** [function areAllSpeciesSelected()], as a truth value. *)
Definition areAllSpeciesSelected (metadata : option Metadata)
    (selectedSpecies : list string) : bool :=
  match metadata with
  | Some md =>
      (List.length selectedSpecies =? List.length (species_list md))%nat
  | None => false
  end.

(** What the user does to the selection. *)
Inductive SelectionEvent : Type :=
  | ToggleOne (species : string)
  | ToggleAll.

Definition select (metadata : option Metadata) (selectedSpecies : list string)
    (ev : SelectionEvent) : list string :=
  match ev with
  | ToggleOne species => toggleSpecies species selectedSpecies
  | ToggleAll => toggleAllSpecies metadata selectedSpecies
  end.

(** The species buttons are those of [metadata.species_list]. *)
Definition offered (metadata : option Metadata) (ev : SelectionEvent) : Prop :=
  match ev, metadata with
  | ToggleOne species, Some md => In species (species_list md)
  | ToggleOne _, None => False
  | ToggleAll, _ => True
  end.

(** *** The slider *)

(** [Math.round], [Math.max] and [Math.min] on finite numbers. *)
Definition Math_round (x : Q) : Q := inject_Z (Qfloor (x + (1 # 2))).

Definition Math_max (x y : Q) : Q := if Qle_bool x y then y else x.

Definition Math_min (x y : Q) : Q := if Qle_bool x y then x else y.

(** The new [sliderValue] of [updateSliderFromMouse] and of
    [updateSliderFromTouch], from the pointer position [clientX] and the
    rectangle of the image container. *)
Definition sliderFromPointer (clientX left width : Q) : Q :=
  let x := clientX - left in
  let percentage := Math_max 0 (Math_min 100 ((x / width) * 100)) in
  Math_round percentage.

(** The variables of the slider. *)
Record Slider : Type := mkSlider {
  sliderValue : Q;
  isDragging : bool;
  isTouching : bool
}.

(** The events of the slider, with what the handlers read of them:
    [onHandle] is [target.closest('.slider-handle')], [touches] the
    [clientX] of [event.touches], [rect] the [left] and the [width] of the
    rectangle of [imageContainer], if the container is bound. *)
Inductive SliderEvent : Type :=
  | MouseDown (onHandle : bool) (clientX : Q) (rect : option (Q * Q))
  | MouseMove (clientX : Q) (rect : option (Q * Q))
  | MouseUp
  | TouchStart (onHandle : bool) (touches : list Q) (rect : option (Q * Q))
  | TouchMove (touches : list Q) (rect : option (Q * Q))
  | TouchEnd
  | KeyDown (key : string).

(** [function updateSliderFromMouse(event)]. *)
Definition updateSliderFromMouse (clientX : Q) (rect : option (Q * Q))
    (st : Slider) : Slider :=
  match rect with
  | None => st
  | Some (rectLeft, width) =>
      mkSlider (sliderFromPointer clientX rectLeft width)
               (isDragging st) (isTouching st)
  end.

(** [function updateSliderFromTouch(event)]. *)
Definition updateSliderFromTouch (touches : list Q) (rect : option (Q * Q))
    (st : Slider) : Slider :=
  match rect, touches with
  | None, _ | _, [] => st
  | Some (rectLeft, width), clientX :: _ =>
      mkSlider (sliderFromPointer clientX rectLeft width)
               (isDragging st) (isTouching st)
  end.

(** The handlers [handleMouseDown], [handleMouseMove], [handleMouseUp],
    [handleTouchStart], [handleTouchMove], [handleTouchEnd] and
    [handleKeyDown]. *)
Definition handle (st : Slider) (ev : SliderEvent) : Slider :=
  match ev with
  | MouseDown onHandle clientX rect =>
      if onHandle then
        updateSliderFromMouse clientX rect
          (mkSlider (sliderValue st) true (isTouching st))
      else st
  | MouseMove clientX rect =>
      if isDragging st then updateSliderFromMouse clientX rect st else st
  | MouseUp => mkSlider (sliderValue st) false (isTouching st)
  | TouchStart onHandle touches rect =>
      if onHandle then
        updateSliderFromTouch touches rect
          (mkSlider (sliderValue st) (isDragging st) true)
      else st
  | TouchMove touches rect =>
      if isTouching st then updateSliderFromTouch touches rect st else st
  | TouchEnd => mkSlider (sliderValue st) (isDragging st) false
  | KeyDown key =>
      if String.eqb key "ArrowLeft" then
        mkSlider (Math_max 0 (sliderValue st - 5))
                 (isDragging st) (isTouching st)
      else if String.eqb key "ArrowRight" then
        mkSlider (Math_min 100 (sliderValue st + 5))
                 (isDragging st) (isTouching st)
      else st
  end.

(** The rectangle that an event reports has a positive width. *)
Definition sized (ev : SliderEvent) : Prop :=
  match ev with
  | MouseDown _ _ (Some (_, width)) | MouseMove _ (Some (_, width))
  | TouchStart _ _ (Some (_, width)) | TouchMove _ (Some (_, width)) =>
      0 < width
  | _ => True
  end.

(** A slider value that is a whole number from 0 to 100. *)
Definition percent (v : Q) : Prop :=
  0 <= v <= 100 /\ exists n : Z, v == inject_Z n.

(** The slider when the component is created. *)
Definition initialSlider : Slider := mkSlider 75 false false.

(** *** Display names *)

(** [s.replace(/-/g, ' ')]. *)
Fixpoint hyphensToSpaces (s : string) : string :=
  match s with
  | EmptyString => EmptyString
  | String c s' =>
      String (if Ascii.eqb c "-" then " "%char else c) (hyphensToSpaces s')
  end.

(** [s.replace(/spp\./g, '')], as a scan from the left: [pending] counts
    the characters of a match that are still to be dropped. *)
Fixpoint dropSpp (pending : nat) (s : string) : string :=
  match s with
  | EmptyString => EmptyString
  | String c s' =>
      match pending with
      | S k => dropSpp k s'
      | O => if prefix "spp." s then dropSpp 3 s'
             else String c (dropSpp 0 s')
      end
  end.

(** [function formatSpeciesName(species)]. *)
Definition formatSpeciesName (species : string) : string :=
  if String.eqb species "dead-understory" then "Dead"%string
  else hyphensToSpaces (dropSpp 0 species).

(** The character [c] occurs in [s]. *)
Fixpoint hasChar (c : ascii) (s : string) : bool :=
  match s with
  | EmptyString => false
  | String d s' => Ascii.eqb c d || hasChar c s'
  end.

(** *** Colours *)

(** [n.toString(16)] of a whole number; [None] is [NaN]. *)
Definition toString16 (n : option Q) : string :=
  match n with
  | None => "NaN"%string
  | Some q => NilZero.string_of_int (Z.to_hex_int (Qfloor q))
  end.

(** [s.padStart(2, '0')]. *)
Definition padStart2 (s : string) : string :=
  match String.length s with
  | 0%nat => "00"%string
  | 1%nat => String "0" s
  | _ => s
  end.

(** [Math.min(255, Math.round(c + (255 - c) * (percent / 100)))]. *)
Definition lightenChannel (c : option Z) (percent : Q) : option Q :=
  match c with
  | None => None
  | Some n =>
      Some (Math_min 255
              (Math_round (inject_Z n
                           + (255 - inject_Z n) * (percent / 100))))
  end.

(** [function lightenColor(hex, percent = 50)]. *)
Definition lightenColor (host : Host) (hex : string) (percent : Q) : string :=
  let color := replace "#" "" hex in
  let r := parseInt16 host (substring 0 2 color) in
  let g := parseInt16 host (substring 2 2 color) in
  let b := parseInt16 host (substring 4 2 color) in
  let newR := lightenChannel r percent in
  let newG := lightenChannel g percent in
  let newB := lightenChannel b percent in
  String "#" (padStart2 (toString16 newR)
              ++ padStart2 (toString16 newG)
              ++ padStart2 (toString16 newB))%string.

(** The two hexadecimal digits of a channel from 0 to 255. *)
Definition hex2 (n : Z) : string :=
  padStart2 (NilZero.string_of_int (Z.to_hex_int n)).

(** The value of a hexadecimal digit. *)
Definition hexDigit (c : ascii) : option Z :=
  let n := Z.of_nat (nat_of_ascii c) in
  if ((48 <=? n) && (n <=? 57))%Z then Some (n - 48)%Z
  else if ((97 <=? n) && (n <=? 102))%Z then Some (n - 87)%Z
  else if ((65 <=? n) && (n <=? 70))%Z then Some (n - 55)%Z
  else None.

(** The number that the hexadecimal digits at the start of [s] write. *)
Fixpoint hexPrefix (acc : option Z) (s : string) : option Z :=
  match s with
  | EmptyString => acc
  | String c s' =>
      match hexDigit c with
      | Some d =>
          hexPrefix (Some (16 * match acc with Some a => a | None => 0 end
                           + d)%Z) s'
      | None => acc
      end
  end.

(** *** Sample inputs of the viewer *)

(** The network of the viewer: the paths start with [/]. *)
Definition servingViewer (shp dbf : result Response) (url : string)
  : result Response :=
  if String.eqb url "/crown_outlines.shp" then shp
  else if String.eqb url "/crown_outlines.dbf" then dbf
  else Rejected (HostError "unreachable").


(** No attribute resource, a geometry that the decoder reads. *)
Definition viewerWorldNoAttributes : Env :=
  mkEnv (servingViewer (Fulfilled (found [1%Z])) (Fulfilled notFound))
        decodeAll.

(** No attribute resource, a geometry that the decoder rejects. *)
Definition viewerWorldBadGeometry : Env :=
  mkEnv (servingViewer (Fulfilled (found [1%Z])) (Fulfilled notFound))
        decodeNothing.

(** A metadata document whose image covers [unitBounds]. *)
Definition sampleMetadata : Metadata :=
  mkMetadata ["oak"; "lime spp."; "dead-understory"]%string
             (Some (mkLayers (Some "crown_outlines.shp"%string)))
             (Some (mkWebAppConfig (Some ((0, 0), (5, 5))))).

(** A host for the sample inputs, whose strings are in lower case and
    have no blank at either end: on these [toLowerCase] and [trim] return
    their argument. *)
Definition sampleHost : Host :=
  mkHost (fun s => s) (fun s => s) (fun _ => "0"%string)
         (fun s => String.eqb s "constructor" || String.eqb s "toString")
         (hexPrefix None).

(** * Properties *)

(** ** Subsequences *)

Lemma subseq_refl {A : Type} (l : list A) : subseq l l.
Proof. induction l; auto with clip. Qed.

Lemma subseq_app {A : Type} (l1 l2 k1 k2 : list A) :
  subseq l1 l2 -> subseq k1 k2 -> subseq (l1 ++ k1) (l2 ++ k2).
Proof. induction 1; intros Hk; simpl; auto with clip. Qed.



Lemma filter_subseq {A : Type} (f : A -> bool) (l : list A) :
  subseq (filter f l) l.
Proof. induction l as [|x l IH]; simpl; try destruct (f x); auto with clip. Qed.

Lemma subseq_In {A : Type} (l1 l2 : list A) (x : A) :
  subseq l1 l2 -> In x l1 -> In x l2.
Proof.
  induction 1 as [|y l1 l2 _ IH|y l1 l2 _ IH]; simpl; intuition.
Qed.

Lemma last_In (first : point) (l : ring) :
  In (last (first :: l) first) (first :: l).
Proof.
  assert (N : first :: l <> []) by discriminate.
  rewrite (app_removelast_last first N) at 2.
  apply in_or_app. right. now left.
Qed.

(** ** The loop of [clipEdge] *)

Section ClipEdgeFacts.

Variable inside : point -> bool.
Variable intersect : point -> point -> point.

Lemma fold_clipStep_output (l : ring) (acc : ring) (p : point) (pIn : bool) :
  output (fold_left (clipStep inside intersect) l (mkLoop acc p pIn))
  = acc ++ walk inside intersect p pIn l.
Proof.
  revert acc p pIn.
  induction l as [|c l IH]; intros acc p pIn; simpl.
  - now rewrite app_nil_r.
  - unfold clipStep at 2; simpl.
    rewrite IH. unfold emitted, push.
    destruct (inside c), pIn; simpl; rewrite <- ?app_assoc; reflexivity.
Qed.

Lemma clipEdge_walk (polygon : ring) :
  clipEdge inside intersect polygon =
  match polygon with
  | [] => []
  | first :: _ =>
      walk inside intersect (last polygon first)
           (inside (last polygon first)) polygon
  end.
Proof.
  destruct polygon as [|first rest]; [reflexivity|].
  unfold clipEdge. now rewrite fold_clipStep_output.
Qed.

(** An invariant carried from the input ring to the output ring: kept
    vertices and intersection points of straddling edges satisfy [Q]. *)
Section Invariant.

Variables P Q : point -> Prop.
Hypothesis keep : forall c, P c -> inside c = true -> Q c.
Hypothesis cut : forall a b,
  P a -> P b -> inside a = negb (inside b) -> Q (intersect a b).

Lemma walk_Forall (rest : ring) (p : point) :
  P p -> Forall P rest ->
  Forall Q (walk inside intersect p (inside p) rest).
Proof.
  revert p. induction rest as [|c rest IH]; intros p Hp Hrest; simpl.
  - constructor.
  - inversion Hrest as [|? ? Hc Hrest']; subst.
    apply Forall_app; split; [|now apply IH].
    unfold emitted.
    destruct (inside c) eqn:Ec, (inside p) eqn:Ep; simpl;
      repeat constructor; auto;
      apply cut; auto; now rewrite Ec, Ep.
Qed.

Lemma clipEdge_Forall (polygon : ring) :
  Forall P polygon -> Forall Q (clipEdge inside intersect polygon).
Proof.
  intros HP. rewrite clipEdge_walk.
  destruct polygon as [|first rest]; [constructor|].
  apply walk_Forall; [|exact HP].
  rewrite Forall_forall in HP. apply HP, last_In.
Qed.

End Invariant.

(** Every call of [intersect] is on an edge of the ring whose ends are
    on different sides. *)
Lemma walk_calls_straddle (rest : ring) (p : point) :
  Forall (fun ab => inside (fst ab) = negb (inside (snd ab)))
         (walk_calls inside p (inside p) rest).
Proof.
  revert p. induction rest as [|c rest IH]; intros p; simpl.
  - constructor.
  - apply Forall_app; split; [|apply IH].
    unfold called.
    destruct (inside c) eqn:Ec, (inside p) eqn:Ep; simpl;
      repeat constructor; simpl; now rewrite Ec, Ep.
Qed.

Lemma clipEdge_calls_straddle (polygon : ring) :
  Forall (fun ab => inside (fst ab) = negb (inside (snd ab)))
         (clipEdge_calls inside polygon).
Proof.
  destruct polygon as [|first rest]; [constructor|].
  apply walk_calls_straddle.
Qed.

Lemma walk_calls_In (rest : ring) (p : point) (pIn : bool) :
  Forall (fun ab => In (fst ab) (p :: rest) /\ In (snd ab) rest)
         (walk_calls inside p pIn rest).
Proof.
  revert p pIn. induction rest as [|c rest IH]; intros p pIn; simpl.
  - constructor.
  - apply Forall_app; split.
    + unfold called. destruct (inside c), pIn; simpl;
        repeat constructor; simpl; auto.
    + eapply Forall_impl; [|apply IH].
      simpl. intros ab [H1 H2]. split; auto.
Qed.

Lemma clipEdge_calls_In (polygon : ring) :
  Forall (fun ab => In (fst ab) polygon /\ In (snd ab) polygon)
         (clipEdge_calls inside polygon).
Proof.
  destruct polygon as [|first rest]; [constructor|].
  unfold clipEdge_calls.
  eapply Forall_impl; [|apply walk_calls_In].
  simpl. intros ab [[H1|H1] H2]; split; auto.
  rewrite <- H1. apply last_In.
Qed.







End ClipEdgeFacts.

(** The output of [clipEdge] depends on [intersect] through its calls only. *)
Lemma walk_ext (inside : point -> bool) (f g : point -> point -> point)
    (rest : ring) (p : point) (pIn : bool) :
  Forall (fun ab => f (fst ab) (snd ab) = g (fst ab) (snd ab))
         (walk_calls inside p pIn rest) ->
  walk inside f p pIn rest = walk inside g p pIn rest.
Proof.
  revert p pIn. induction rest as [|c rest IH]; intros p pIn H; simpl in *.
  - reflexivity.
  - apply Forall_app in H as [H1 H2].
    rewrite (IH _ _ H2). f_equal.
    unfold emitted, called in *.
    destruct (inside c), pIn; simpl in *; try reflexivity;
      inversion H1; subst; simpl in *; congruence.
Qed.

Lemma clipEdge_ext (inside : point -> bool) (f g : point -> point -> point)
    (polygon : ring) :
  Forall (fun ab => f (fst ab) (snd ab) = g (fst ab) (snd ab))
         (clipEdge_calls inside polygon) ->
  clipEdge inside f polygon = clipEdge inside g polygon.
Proof.
  intros H. rewrite !clipEdge_walk.
  destruct polygon as [|first rest]; [reflexivity|].
  now apply walk_ext.
Qed.

(** ** Arithmetic of the interpolation *)

Lemma Qle_bool_false (x y : Q) : Qle_bool x y = false -> y < x.
Proof.
  intros H. apply Qnot_le_lt. intros L.
  apply Qle_bool_iff in L. congruence.
Qed.

(** The parameter [t] of an edge whose ends are on different sides of the
    line at [b] lies in [[0, 1]]. *)
Lemma straddle_ratio (b x1 x2 : Q) :
  (x1 <= b /\ b <= x2 /\ x1 < x2) \/ (x2 <= b /\ b <= x1 /\ x2 < x1) ->
  0 <= (b - x1) / (x2 - x1) <= 1.
Proof.
  intros [(H1 & H2 & H3)|(H1 & H2 & H3)].
  - split.
    + apply Qle_shift_div_l; lra.
    + apply Qle_shift_div_r; lra.
  - assert (E : (b - x1) / (x2 - x1) == (x1 - b) / (x1 - x2)).
    { field. lra. }
    rewrite E. split.
    + apply Qle_shift_div_l; lra.
    + apply Qle_shift_div_r; lra.
Qed.





Lemma withinb_iff (bounds : Bounds) (pt : point) :
  withinb bounds pt = true <-> within bounds pt.
Proof.
  destruct pt as [x y]. unfold withinb, within; simpl.
  rewrite !andb_true_iff, !Qle_bool_iff. tauto.
Qed.

(** The two ways for the ends of an edge to be on different sides. *)
Ltac sides H :=
  simpl in H;
  repeat match type of H with
         | context [Qle_bool ?u ?v] =>
             let E := fresh "E" in
             destruct (Qle_bool u v) eqn:E;
             [apply Qle_bool_iff in E | apply Qle_bool_false in E]
         end;
  simpl in H; try discriminate H.

Lemma straddle_divisor (e : Edge) (bounds : Bounds) (a b : point) :
  insideOf e bounds a = negb (insideOf e bounds b) ->
  ~ divisor e a b == 0.
Proof.
  destruct a as [x1 y1], b as [x2 y2].
  destruct e; intros H; sides H; simpl; lra.
Qed.


(** ** The four passes *)

Section Passes.

Variable bounds : Bounds.






End Passes.

(** ** The clipped rings of a feature and the crowns of a collection *)

Lemma croppedCoords_length (coords : list ring) (bounds : Bounds) :
  Forall (fun r => (3 <= List.length r)%nat) (croppedCoords coords bounds).
Proof.
  apply Forall_forall. intros r H.
  apply filter_In in H as [_ H]. apply Nat.ltb_lt in H. lia.
Qed.


Lemma fold_pushCrown_inv (P : CrownPolygon -> Prop)
    (step : list CrownPolygon -> Feature -> list CrownPolygon)
    (fs : list Feature) (init : list CrownPolygon) :
  (forall crowns f, Forall P crowns -> Forall P (step crowns f)) ->
  Forall P init -> Forall P (fold_left step fs init).
Proof.
  intros Hstep. revert init.
  induction fs as [|f fs IH]; intros init Hinit; simpl; auto.
Qed.

Lemma pushCrown_clipped (bounds : Bounds) (fs : list Feature) :
  Forall (clippedFrom bounds) (fold_left (pushCrown bounds) fs []).
Proof.
  apply fold_pushCrown_inv; [|constructor].
  intros crowns f H. unfold pushCrown.
  destruct (geometry f) as [[coords|ty]|]; auto.
  destruct (0 <? _)%nat; auto.
  apply Forall_app; split; auto.
  constructor; [|constructor]. now exists coords.
Qed.

Lemma pushCrownGeometryOnly_clipped (bounds : Bounds) (fs : list Feature) :
  Forall (fun c => clippedFrom bounds c /\ properties c = [])
         (fold_left (pushCrownGeometryOnly bounds) fs []).
Proof.
  apply fold_pushCrown_inv; [|constructor].
  intros crowns f H. unfold pushCrownGeometryOnly.
  destruct (geometry f) as [[coords|ty]|]; auto.
  destruct (0 <? _)%nat; auto.
  apply Forall_app; split; auto.
  constructor; [|constructor]. split; [now exists coords | reflexivity].
Qed.

Lemma loadGeometryOnly_clipped (env : Env) (buf : ArrayBuffer)
    (bounds : Bounds) (crowns : list CrownPolygon) :
  loadGeometryOnly env buf bounds = Fulfilled crowns ->
  Forall (fun c => clippedFrom bounds c /\ properties c = []) crowns.
Proof.
  unfold loadGeometryOnly, bind.
  destruct (shapefile_read env buf None) as [coll|e]; [|discriminate].
  intros [= <-]. apply pushCrownGeometryOnly_clipped.
Qed.

(** The ways [loadCrownShapefile] ends. *)
Lemma loadCrownShapefile_cases (env : Env) (path : string) (bounds : Bounds) :
  loadCrownShapefile env path bounds = Fulfilled []
  \/ (exists coll,
        loadCrownShapefile env path bounds
        = Fulfilled (fold_left (pushCrown bounds) (features coll) []))
  \/ (exists buf,
        loadCrownShapefile env path bounds = loadGeometryOnly env buf bounds).
Proof.
  unfold loadCrownShapefile, loadAttempt, bind, Promise_all.
  destruct (fetch env path) as [shpR|e1]; [|now left].
  destruct (fetch env (dbfPathOf path)) as [dbfR|e2]; [|now left].
  destruct (ok shpR); simpl; [|now left].
  destruct (ok dbfR); simpl.
  - destruct (arrayBuffer shpR) as [b1|e3]; [|now left].
    destruct (arrayBuffer dbfR) as [b2|e4]; [|now left].
    destruct (shapefile_read env b1 (Some b2)) as [coll|e5]; [|now left].
    right; left. now exists coll.
  - destruct (arrayBuffer shpR) as [b1|e3]; [|now left].
    right; right. now exists b1.
Qed.

Lemma loadCrownShapefile_clipped (env : Env) (path : string)
    (bounds : Bounds) (crowns : list CrownPolygon) :
  loadCrownShapefile env path bounds = Fulfilled crowns ->
  Forall (clippedFrom bounds) crowns.
Proof.
  intros H.
  destruct (loadCrownShapefile_cases env path bounds)
    as [E|[(coll & E)|(buf & E)]]; rewrite E in H.
  - injection H as <-. constructor.
  - injection H as <-. apply pushCrown_clipped.
  - apply loadGeometryOnly_clipped in H.
    eapply Forall_impl; [|exact H]. now intros c [Hc _].
Qed.

(** ** Ring validity *)

(** C1. For bounds with [minX <= maxX] and [minY <= maxY], every ring of
    every [CrownPolygon] returned by [loadCrownShapefile], and by the
    fallback [loadGeometryOnly], has at least 3 vertices. *)
Theorem C1_rings_have_three_vertices (env : Env) (bounds : Bounds) :
  minX bounds <= maxX bounds -> minY bounds <= maxY bounds ->
  (forall path crowns,
     loadCrownShapefile env path bounds = Fulfilled crowns ->
     Forall (fun c => Forall (fun r => (3 <= List.length r)%nat)
                             (coordinates c)) crowns)
  /\ (forall shpBuffer crowns,
        loadGeometryOnly env shpBuffer bounds = Fulfilled crowns ->
        Forall (fun c => Forall (fun r => (3 <= List.length r)%nat)
                                (coordinates c)) crowns).
Proof.
  intros _ _. split.
  - intros path crowns H. apply loadCrownShapefile_clipped in H.
    eapply Forall_impl; [|exact H].
    intros c (coords & ->). apply croppedCoords_length.
  - intros buf crowns H. apply loadGeometryOnly_clipped in H.
    eapply Forall_impl; [|exact H].
    intros c [(coords & ->) _]. apply croppedCoords_length.
Qed.

Lemma C1_rings_have_three_vertices_witness :
  Forall (fun c => Forall (fun r => (3 <= List.length r)%nat) (coordinates c))
         [mkCrown "Polygon"
            (croppedCoords [overlappingSquare; farSquare] unitBounds) oak;
          mkCrown "Polygon" [containedSquare] []]
  /\ Forall (fun c => Forall (fun r => (3 <= List.length r)%nat)
                             (coordinates c))
            [mkCrown "Polygon"
               (croppedCoords [overlappingSquare; farSquare] unitBounds) [];
             mkCrown "Polygon" [containedSquare] []].
Proof.
  assert (Hx : minX unitBounds <= maxX unitBounds) by (simpl; lra).
  assert (Hy : minY unitBounds <= maxY unitBounds) by (simpl; lra).
  destruct (C1_rings_have_three_vertices worldComplete unitBounds Hx Hy)
    as [Hload Hfallback].
  split.
  - apply (Hload shpUrl). reflexivity.
  - apply (Hfallback [1%Z]). reflexivity.
Defined.

(** ** Containment *)



(** ** Scenario: partially overlapping square *)

(** C6. Clipping the ring [[-1,-1],[-1,1],[1,1],[1,-1]] against the bounds
    [{minX:0, minY:0, maxX:5, maxY:5}] yields a ring of exactly 4 points,
    [[0,0],[0,1],[1,1],[1,0]], all within the bounds. *)
Theorem C6_overlapping_square :
  let out := clipPolygonToBounds
               [(-1, -1); (-1, 1); (1, 1); (1, -1)] (mkBounds 0 0 5 5) in
  List.length out = 4%nat
  /\ Forall2 samePoint out [(0, 0); (0, 1); (1, 1); (1, 0)]
  /\ Forall (within (mkBounds 0 0 5 5)) out.
Proof.
  vm_compute. repeat split; repeat constructor; vm_compute; congruence.
Qed.

(** ** Safety of the interpolation *)

(** [clipPolygonToBounds] is the four passes over [inputOf]. *)
Lemma clipPolygonToBounds_passes (polygon : ring) (bounds : Bounds) :
  clipPolygonToBounds polygon bounds
  = clipEdge (insideOf TopEdge bounds) (intersectOf TopEdge bounds)
             (inputOf TopEdge polygon bounds)
  /\ inputOf TopEdge polygon bounds
     = clipEdge (insideOf BottomEdge bounds) (intersectOf BottomEdge bounds)
                (inputOf BottomEdge polygon bounds)
  /\ inputOf BottomEdge polygon bounds
     = clipEdge (insideOf RightEdge bounds) (intersectOf RightEdge bounds)
                (inputOf RightEdge polygon bounds)
  /\ inputOf RightEdge polygon bounds
     = clipEdge (insideOf LeftEdge bounds) (intersectOf LeftEdge bounds)
                (inputOf LeftEdge polygon bounds).
Proof. repeat split. Qed.

(** [intersect_calls] lists all the calls: the result depends on the
    [intersect] functions through these calls only. *)
Lemma intersect_calls_complete (g : Edge -> point -> point -> point)
    (polygon : ring) (bounds : Bounds) :
  Forall (fun c => g (fst c) (fst (snd c)) (snd (snd c))
                   = intersectOf (fst c) bounds (fst (snd c)) (snd (snd c)))
         (intersect_calls polygon bounds) ->
  clipWith g polygon bounds = clipPolygonToBounds polygon bounds.
Proof.
  unfold intersect_calls; simpl. rewrite app_nil_r.
  rewrite !Forall_app, !Forall_map; simpl.
  intros (H1 & H2 & H3 & H4).
  unfold clipWith, clipPolygonToBounds; simpl.
  unfold inputOf in *.
  rewrite (clipEdge_ext _ _ _ _ H1).
  rewrite (clipEdge_ext _ _ _ _ H2).
  rewrite (clipEdge_ext _ _ _ _ H3).
  rewrite (clipEdge_ext _ _ _ _ H4).
  reflexivity.
Qed.

Lemma fold_clipStepChecked (inside : point -> bool)
    (f : point -> point -> point) (g : point -> point -> option point)
    (l : ring) (st : LoopState) :
  Forall (fun ab => g (fst ab) (snd ab) = Some (f (fst ab) (snd ab)))
         (walk_calls inside (prev st) (prevInside st) l) ->
  fold_left (clipStepChecked inside g) l (Some st)
  = Some (fold_left (clipStep inside f) l st).
Proof.
  revert st. induction l as [|c l IH]; intros st H; simpl in *.
  - reflexivity.
  - apply Forall_app in H as [H1 H2].
    unfold called in H1. unfold clipStep at 2.
    destruct (inside c) eqn:Ec, (prevInside st) eqn:Ep; simpl in *.
    all: try (inversion H1 as [|? ? Hg _]; subst; simpl in Hg; rewrite Hg).
    all: apply IH; exact H2.
Qed.

Lemma clipEdgeChecked_Some (inside : point -> bool)
    (f : point -> point -> point) (g : point -> point -> option point)
    (polygon : ring) :
  Forall (fun ab => g (fst ab) (snd ab) = Some (f (fst ab) (snd ab)))
         (clipEdge_calls inside polygon) ->
  clipEdgeChecked inside g polygon = Some (clipEdge inside f polygon).
Proof.
  destruct polygon as [|first rest]; [reflexivity|].
  intros H. unfold clipEdgeChecked, clipEdge.
  now rewrite (fold_clipStepChecked inside f g).
Qed.

Lemma clipEdgeChecked_pass (e : Edge) (bounds : Bounds) (polygon : ring) :
  clipEdgeChecked (insideOf e bounds) (intersectChecked e bounds) polygon
  = Some (clipEdge (insideOf e bounds) (intersectOf e bounds) polygon).
Proof.
  apply clipEdgeChecked_Some.
  eapply Forall_impl; [|apply clipEdge_calls_straddle].
  intros [a b] H; simpl in *.
  unfold intersectChecked.
  destruct (Qeq_bool (divisor e a b) 0) eqn:E; [|reflexivity].
  apply Qeq_bool_iff in E.
  now apply straddle_divisor in H.
Qed.

(** C9. In every call of an [intersect] function made by [clipEdge] during
    [clipPolygonToBounds], one end of the edge satisfies the [inside]
    predicate of the pass and the other does not, and the divisor of the
    interpolation ([x2 - x1] for the vertical sides, [y2 - y1] for the
    horizontal ones) is not zero; the clipper whose division can fail
    returns, for every ring, the ring that [clipPolygonToBounds] returns. *)
Theorem C9_intersect_divisor_nonzero (polygon : ring) (bounds : Bounds) :
  Forall (fun c =>
            let '(e, (a, b)) := c in
            insideOf e bounds a = negb (insideOf e bounds b)
            /\ ~ divisor e a b == 0)
         (intersect_calls polygon bounds)
  /\ clipPolygonToBoundsChecked polygon bounds
     = Some (clipPolygonToBounds polygon bounds).
Proof.
  split.
  - unfold intersect_calls. apply Forall_flat_map.
    apply Forall_forall. intros e _.
    apply Forall_map.
    eapply Forall_impl; [|apply clipEdge_calls_straddle].
    intros [a b] H; simpl in H. split; [exact H|].
    now apply straddle_divisor with bounds.
  - unfold clipPolygonToBoundsChecked; cbn [fold_left].
    now rewrite !clipEdgeChecked_pass.
Qed.
(** The overlapping square makes four such calls. *)
Example intersect_calls_overlappingSquare :
  intersect_calls overlappingSquare unitBounds
  = [(LeftEdge, ((1, -1), (-1, -1))); (LeftEdge, ((-1, 1), (1, 1)));
     (BottomEdge, (intersectLeft unitBounds (1, -1) (-1, -1),
                   intersectLeft unitBounds (-1, 1) (1, 1)));
     (BottomEdge, ((1, 1), (1, -1)))].
Proof. reflexivity. Qed.

(** ** Order preservation *)



Lemma projectToPixels_map (coordinates : list ring)
    (imageBounds : (Q * Q) * (Q * Q)) (imageWidth imageHeight : Q) :
  projectToPixels coordinates imageBounds imageWidth imageHeight
  = map (map (pixelOf imageBounds imageWidth imageHeight)) coordinates.
Proof.
  destruct imageBounds as [[minLat minLon] [maxLat maxLon]].
  unfold projectToPixels, pixelOf.
  apply map_ext. intros r. apply map_ext. now intros [x y].
Qed.



(** ** Projection *)

(** C7. For image bounds [[[minLat, minLon], [maxLat, maxLon]]] with
    [minLon < maxLon] and [minLat < maxLat], [projectToPixels] maps the
    point [[lon, lat]] at ring [i], position [j] to the pixel pair
    [[((lon - minLon) / (maxLon - minLon)) * width,
      ((maxLat - lat) / (maxLat - minLat)) * height]] at ring [i],
    position [j]; the point (lon=10, lat=50) with bounds
    [[[40, 0], [60, 20]]] and a 1000x500 image maps to (500, 250). *)
Theorem C7_projection (coordinates : list ring)
    (minLat minLon maxLat maxLon imageWidth imageHeight : Q) :
  minLon < maxLon -> minLat < maxLat ->
  (forall i j ring lon lat,
     nth_error coordinates i = Some ring ->
     nth_error ring j = Some (lon, lat) ->
     exists out,
       nth_error (projectToPixels coordinates
                    ((minLat, minLon), (maxLat, maxLon))
                    imageWidth imageHeight) i = Some out
       /\ nth_error out j
          = Some (((lon - minLon) / (maxLon - minLon)) * imageWidth,
                  ((maxLat - lat) / (maxLat - minLat)) * imageHeight))
  /\ Forall2 (Forall2 samePoint)
       (projectToPixels [[(10, 50)]] ((40, 0), (60, 20)) 1000 500)
       [[(500, 250)]].
Proof.
  intros _ _. split.
  - intros i j r lon lat Hi Hj.
    rewrite projectToPixels_map, nth_error_map.
    unfold ring in *. rewrite Hi; simpl.
    eexists; split; [reflexivity|].
    now rewrite nth_error_map, Hj.
  - repeat constructor; vm_compute; congruence.
Qed.

Lemma C7_projection_witness :
  exists out,
    nth_error (projectToPixels [[(10, 50)]] ((40, 0), (60, 20)) 1000 500) 0
    = Some out
    /\ nth_error out 0
       = Some (((10 - 0) / (20 - 0)) * 1000, ((60 - 50) / (60 - 40)) * 500).
Proof.
  assert (Hlon : 0 < 20) by lra.
  assert (Hlat : 40 < 60) by lra.
  destruct (C7_projection [[(10, 50)]] 40 0 60 20 1000 500 Hlon Hlat)
    as [Hmap _].
  apply (Hmap 0%nat 0%nat [(10, 50)] 10 50); reflexivity.
Defined.

(** ** Degenerate inputs *)



Lemma clip_empty (bounds : Bounds) : clipPolygonToBounds [] bounds = [].
Proof. reflexivity. Qed.








Example encloses_containedSquare :
  encloses containedSquare (3 # 2, 3 # 2) = true
  /\ encloses containedSquare (3, 3 # 2) = false.
Proof. split; reflexivity. Qed.

(** ** Failures of the load *)

Lemma fold_pushCrownGeometryOnly_rings (bounds : Bounds) (fs : list Feature)
    (init : list CrownPolygon) :
  map coordinates (fold_left (pushCrownGeometryOnly bounds) fs init)
  = map coordinates init ++ survivingRings bounds fs.
Proof.
  revert init. induction fs as [|f fs IH]; intros init; simpl.
  - now rewrite app_nil_r.
  - rewrite IH. unfold pushCrownGeometryOnly, survivingRings; simpl.
    destruct (geometry f) as [[coords|ty]|]; simpl; try reflexivity.
    destruct (0 <? List.length (croppedCoords coords bounds))%nat;
      simpl; [|reflexivity].
    rewrite map_app; simpl. now rewrite <- app_assoc.
Qed.

(** A rejection leaves [loadCrownShapefile] on one path only: the
    attribute fetch answered with a failure status and the decoder rejects
    the geometry buffer in [loadGeometryOnly]. *)
Lemma loadCrownShapefile_rejected (env : Env) (path : string)
    (bounds : Bounds) (e : exn) :
  loadCrownShapefile env path bounds = Rejected e <->
  exists shpR dbfR buf,
    fetch env path = Fulfilled shpR
    /\ fetch env (dbfPathOf path) = Fulfilled dbfR
    /\ ok shpR = true /\ ok dbfR = false
    /\ arrayBuffer shpR = Fulfilled buf
    /\ shapefile_read env buf None = Rejected e.
Proof.
  unfold loadCrownShapefile, loadAttempt, loadGeometryOnly, bind, Promise_all.
  split.
  - destruct (fetch env path) as [shpR|e1]; [|discriminate].
    destruct (fetch env (dbfPathOf path)) as [dbfR|e2]; [|discriminate].
    destruct (ok shpR) eqn:O1; simpl; [|discriminate].
    destruct (ok dbfR) eqn:O2; simpl.
    + destruct (arrayBuffer shpR) as [b1|e3]; [|discriminate].
      destruct (arrayBuffer dbfR) as [b2|e4]; [|discriminate].
      destruct (shapefile_read env b1 (Some b2)); discriminate.
    + destruct (arrayBuffer shpR) as [b1|e3] eqn:A; [|discriminate].
      destruct (shapefile_read env b1 None) as [coll|e5] eqn:R;
        [discriminate|].
      intros [= <-]. now exists shpR, dbfR, b1.
  - intros (shpR & dbfR & buf & -> & -> & -> & -> & -> & ->). reflexivity.
Qed.

(** With both resources fetched, a rejection of the decoder is caught. *)
Lemma decoder_rejection_caught (env : Env) (path : string) (bounds : Bounds)
    (shpR dbfR : Response) (b1 b2 : ArrayBuffer) (e : exn) :
  fetch env path = Fulfilled shpR ->
  fetch env (dbfPathOf path) = Fulfilled dbfR ->
  ok shpR = true -> ok dbfR = true ->
  arrayBuffer shpR = Fulfilled b1 -> arrayBuffer dbfR = Fulfilled b2 ->
  shapefile_read env b1 (Some b2) = Rejected e ->
  loadCrownShapefile env path bounds = Fulfilled [].
Proof.
  intros F1 F2 O1 O2 A1 A2 R.
  unfold loadCrownShapefile, loadAttempt, bind, Promise_all.
  now rewrite F1, F2, O1, O2, A1, A2, R.
Qed.

(** C3. At the failing input the geometry is fetched, the attribute fetch
    answers 404 and the decoder rejects the geometry buffer: the rejection
    raised in [loadGeometryOnly] reaches the caller of
    [loadCrownShapefile]. *)
Theorem C3_fallback_rejection_reaches_caller :
  fetch worldBadGeometry shpUrl = Fulfilled (found [1%Z])
  /\ fetch worldBadGeometry (dbfPathOf shpUrl) = Fulfilled notFound
  /\ shapefile_read worldBadGeometry [1%Z] None
     = Rejected (HostError "unreadable geometry")
  /\ loadCrownShapefile worldBadGeometry shpUrl unitBounds
     = Rejected (HostError "unreadable geometry").
Proof. repeat split. Qed.

(** C4, as amended. Where the geometry resource is fetched, read and
    decoded and the attribute fetch answers with a failure status,
    [loadCrownShapefile] returns the polygons that survive clipping, in
    order, each with an empty properties mapping; the result is not empty
    if a polygon survives. *)
Theorem C4_geometry_only_on_failure_status (env : Env) (path : string)
    (bounds : Bounds) (shpR dbfR : Response) (shpBuffer : ArrayBuffer)
    (collection : FeatureCollection) :
  fetch env path = Fulfilled shpR -> ok shpR = true ->
  fetch env (dbfPathOf path) = Fulfilled dbfR -> ok dbfR = false ->
  arrayBuffer shpR = Fulfilled shpBuffer ->
  shapefile_read env shpBuffer None = Fulfilled collection ->
  exists crowns,
    loadCrownShapefile env path bounds = Fulfilled crowns
    /\ map coordinates crowns = survivingRings bounds (features collection)
    /\ Forall (fun c => properties c = []) crowns
    /\ (survivingRings bounds (features collection) <> [] -> crowns <> []).
Proof.
  intros F1 O1 F2 O2 A1 R.
  exists (fold_left (pushCrownGeometryOnly bounds) (features collection) []).
  assert (E : map coordinates
                (fold_left (pushCrownGeometryOnly bounds)
                           (features collection) [])
              = survivingRings bounds (features collection)).
  { now rewrite fold_pushCrownGeometryOnly_rings. }
  split; [|split; [exact E|split]].
  - unfold loadCrownShapefile, loadAttempt, loadGeometryOnly, bind,
      Promise_all.
    now rewrite F1, F2, O1, O2, A1, R.
  - eapply Forall_impl; [|apply pushCrownGeometryOnly_clipped].
    now intros c [_ H].
  - intros N C. rewrite C in E. simpl in E. now rewrite <- E in N.
Qed.

Lemma C4_geometry_only_on_failure_status_witness :
  exists crowns,
    loadCrownShapefile worldNoAttributes shpUrl unitBounds = Fulfilled crowns
    /\ map coordinates crowns
       = survivingRings unitBounds (features (sampleFeatures None))
    /\ Forall (fun c => properties c = []) crowns
    /\ (survivingRings unitBounds (features (sampleFeatures None)) <> []
        -> crowns <> []).
Proof.
  apply (C4_geometry_only_on_failure_status worldNoAttributes shpUrl
           unitBounds (found [1%Z]) notFound [1%Z] (sampleFeatures None));
    reflexivity.
Defined.

(** C4, as stated, fails where the attribute resource is fetched but
    cannot be decoded, and where its fetch is rejected: the geometry is
    fetched and can be decoded alone, two polygons survive clipping, and
    [loadCrownShapefile] returns an empty sequence. *)
Lemma C4_unusable_attributes_empty_result :
  (fetch worldBadAttributes shpUrl = Fulfilled (found [1%Z])
   /\ fetch worldBadAttributes (dbfPathOf shpUrl) = Fulfilled (found [2%Z])
   /\ shapefile_read worldBadAttributes [1%Z] (Some [2%Z])
      = Rejected (HostError "unreadable attribute table")
   /\ shapefile_read worldBadAttributes [1%Z] None
      = Fulfilled (sampleFeatures None)
   /\ List.length (survivingRings unitBounds (features (sampleFeatures None)))
      = 2%nat
   /\ loadCrownShapefile worldBadAttributes shpUrl unitBounds = Fulfilled [])
  /\ (fetch worldUnreachableAttributes shpUrl = Fulfilled (found [1%Z])
      /\ fetch worldUnreachableAttributes (dbfPathOf shpUrl)
         = Rejected (HostError "network failure")
      /\ shapefile_read worldUnreachableAttributes [1%Z] None
         = Fulfilled (sampleFeatures None)
      /\ loadCrownShapefile worldUnreachableAttributes shpUrl unitBounds
         = Fulfilled []).
Proof. repeat split. Qed.

(** ** The attribute path *)

Local Open Scope string_scope.

Lemma prefix_append (p s : string) : prefix p (p ++ s) = true.
Proof.
  induction p as [|c p IH]; simpl.
  - now destruct s.
  - destruct (ascii_dec c c) as [_|N]; [exact IH | now elim N].
Qed.

Lemma skip_append (p s : string) : skip (String.length p) (p ++ s) = s.
Proof. induction p as [|c p IH]; simpl; [reflexivity | exact IH]. Qed.

Lemma prefix_split (p s : string) :
  prefix p s = true -> s = p ++ skip (String.length p) s.
Proof.
  revert s. induction p as [|c p IH]; intros s H.
  - reflexivity.
  - destruct s as [|d s]; simpl in H; [discriminate|].
    destruct (ascii_dec c d) as [->|N]; [|discriminate].
    simpl. f_equal. now apply IH.
Qed.

Lemma replace_unfold (pattern replacement s : string) :
  replace pattern replacement s
  = if prefix pattern s then replacement ++ skip (String.length pattern) s
    else match s with
         | EmptyString => EmptyString
         | String c s' => String c (replace pattern replacement s')
         end.
Proof. destruct s; reflexivity. Qed.

Lemma replace_first (pattern replacement pre post : string) :
  firstOccurrence pattern pre post (pre ++ pattern ++ post) ->
  replace pattern replacement (pre ++ pattern ++ post)
  = pre ++ replacement ++ post.
Proof.
  induction pre as [|c pre IH]; intros [_ Hfirst].
  - simpl. rewrite replace_unfold, prefix_append, skip_append. reflexivity.
  - rewrite replace_unfold.
    destruct (prefix pattern (String c pre ++ pattern ++ post)) eqn:E.
    + apply prefix_split in E.
      specialize (Hfirst "" _ E). simpl in Hfirst. lia.
    + simpl. f_equal. apply IH. split; [reflexivity|].
      intros pre' post' H.
      specialize (Hfirst (String c pre') post'). simpl in Hfirst.
      rewrite H in Hfirst. specialize (Hfirst eq_refl). lia.
Qed.

Lemma replace_absent (pattern replacement s : string) :
  (forall pre post, s <> pre ++ pattern ++ post) ->
  replace pattern replacement s = s.
Proof.
  induction s as [|c s IH]; intros H; rewrite replace_unfold.
  - destruct (prefix pattern "") eqn:E; [|reflexivity].
    apply prefix_split in E. now elim (H "" (skip (String.length pattern) "")).
  - destruct (prefix pattern (String c s)) eqn:E.
    + apply prefix_split in E.
      now elim (H "" (skip (String.length pattern) (String c s))).
    + f_equal. apply IH. intros pre post ->.
      now elim (H (String c pre) post).
Qed.

Lemma occursb_false (pattern s : string) :
  occursb pattern s = false ->
  forall pre post, s <> pre ++ pattern ++ post.
Proof.
  assert (U : forall s', occursb pattern s'
                         = prefix pattern s'
                           || match s' with
                              | EmptyString => false
                              | String _ s'' => occursb pattern s''
                              end)
    by (now intros [|c s']).
  intros H pre. revert s H.
  induction pre as [|c pre IH]; intros s H post E; subst s;
    rewrite U in H; apply orb_false_iff in H as [H1 H2].
  - simpl in H1. rewrite prefix_append in H1. discriminate.
  - now apply (IH _ H2 post).
Qed.

Lemma firstOccurrence_intro (pattern pre post : string) :
  (forall n, (n < String.length pre)%nat ->
             prefix pattern (skip n (pre ++ pattern ++ post)) = false) ->
  firstOccurrence pattern pre post (pre ++ pattern ++ post).
Proof.
  intros H. split; [reflexivity|].
  intros pre' post' E.
  destruct (le_lt_dec (String.length pre) (String.length pre')) as [L|L];
    [exact L|].
  specialize (H _ L). rewrite E, skip_append, prefix_append in H.
  discriminate.
Qed.

(** C10. [loadCrownShapefile] derives the attribute path by replacing the
    first occurrence of ['.shp'] in the geometry path with ['.dbf'], and
    only that one; for a geometry path that does not contain ['.shp'] the
    attribute path is the geometry path, and the resource fetched at that
    path is used both as geometry buffer and as attribute buffer. *)
Theorem C10_attribute_path :
  (forall pre post,
     firstOccurrence ".shp" pre post (pre ++ ".shp" ++ post) ->
     dbfPathOf (pre ++ ".shp" ++ post) = pre ++ ".dbf" ++ post)
  /\ (forall path,
        (forall pre post, path <> pre ++ ".shp" ++ post) ->
        dbfPathOf path = path
        /\ forall env bounds,
             loadCrownShapefile env path bounds
             = match fetch env path with
               | Fulfilled response =>
                   if ok response then
                     match arrayBuffer response with
                     | Fulfilled buffer =>
                         match shapefile_read env buffer (Some buffer) with
                         | Fulfilled collection =>
                             Fulfilled (fold_left (pushCrown bounds)
                                          (features collection) nil)
                         | Rejected _ => Fulfilled nil
                         end
                     | Rejected _ => Fulfilled nil
                     end
                   else Fulfilled nil
               | Rejected _ => Fulfilled nil
               end).
Proof.
  split.
  - intros pre post H. now apply replace_first.
  - intros path H.
    assert (E : dbfPathOf path = path) by now apply replace_absent.
    split; [exact E|].
    intros env bounds.
    unfold loadCrownShapefile, loadAttempt, bind, Promise_all.
    rewrite E.
    destruct (fetch env path) as [r|e]; [|reflexivity].
    destruct (ok r); simpl; [|reflexivity].
    destruct (arrayBuffer r) as [b|e]; [|reflexivity].
    destruct (shapefile_read env b (Some b)); reflexivity.
Qed.

Lemma C10_attribute_path_witness :
  dbfPathOf "a/b.shp.shp" = "a/b.dbf.shp"
  /\ dbfPathOf "crowns.zip" = "crowns.zip".
Proof.
  destruct C10_attribute_path as [Hfirst Habsent].
  split.
  - apply (Hfirst "a/b" ".shp").
    apply firstOccurrence_intro.
    intros [|[|[|n]]] L; try reflexivity. simpl in L. lia.
  - apply (Habsent "crowns.zip").
    apply occursb_false. reflexivity.
Defined.

(** * Further properties *)

Local Close Scope string_scope.

(** ** The clipper *)



(** X2. Every vertex of the ring that [clipPolygonToBounds] returns is a
    vertex of the input ring or lies on one of the four lines that carry
    the sides of the rectangle. *)
Theorem X2_clip_vertices_from_input_or_side (polygon : ring)
    (bounds : Bounds) :
  Forall (fun pt => In pt polygon \/ onSideLine bounds pt)
         (clipPolygonToBounds polygon bounds).
Proof.
  set (R := fun pt => In pt polygon \/ onSideLine bounds pt).
  assert (H0 : Forall R polygon).
  { apply Forall_forall. intros pt H. now left. }
  assert (Hpass : forall e r,
             Forall R r ->
             Forall R (clipEdge (insideOf e bounds) (intersectOf e bounds) r)).
  { intros e r. apply clipEdge_Forall; [auto|].
    intros [x1 y1] [x2 y2] _ _ _. right. unfold onSideLine.
    destruct e; simpl; auto. }
  unfold clipPolygonToBounds.
  apply (Hpass TopEdge), (Hpass BottomEdge), (Hpass RightEdge),
    (Hpass LeftEdge), H0.
Qed.

Lemma rotation_refl {A : Type} (l : list A) : rotation l l.
Proof. exists [], l. now rewrite app_nil_r. Qed.

Lemma rotation_trans {A : Type} (l1 l2 l3 : list A) :
  rotation l1 l2 -> rotation l2 l3 -> rotation l1 l3.
Proof.
  intros (a & b & -> & ->) (c & d & E & ->).
  (* [b ++ a = c ++ d]: the cut of the second rotation falls in [b] or
     in [a] *)
  apply app_eq_app in E as (m & [[-> ->]|[-> ->]]).
  - exists (a ++ c), m. split; now rewrite <- !app_assoc.
  - exists m, (d ++ b). split; now rewrite <- !app_assoc.
Qed.

Section Rotation.

Variable inside : point -> bool.
Variable intersect : point -> point -> point.

Lemma last_nonempty (l : ring) (d d' : point) :
  l <> [] -> last l d = last l d'.
Proof.
  induction l as [|c l IH]; intros N; [now elim N|].
  destruct l as [|c' l]; [reflexivity|].
  change (last (c' :: l) d = last (c' :: l) d'). now apply IH.
Qed.

Lemma last_cons (c : point) (l : ring) (d : point) :
  last (c :: l) d = last l c.
Proof.
  destruct l as [|c' l]; [reflexivity|].
  change (last (c' :: l) d = last (c' :: l) c).
  now apply last_nonempty.
Qed.

Lemma last_app (a b : ring) (d : point) :
  b <> [] -> last (a ++ b) d = last b d.
Proof.
  intros N. induction a as [|c a IH]; [reflexivity|].
  destruct (a ++ b) eqn:E.
  - apply app_eq_nil in E as [_ ->]. now elim N.
  - simpl. now rewrite E.
Qed.

Lemma walk_app (a b : ring) (p : point) :
  walk inside intersect p (inside p) (a ++ b)
  = walk inside intersect p (inside p) a
    ++ walk inside intersect (last a p) (inside (last a p)) b.
Proof.
  revert p. induction a as [|c a IH]; intros p.
  - reflexivity.
  - cbn [app walk]. now rewrite IH, <- app_assoc, last_cons.
Qed.

Lemma clipEdge_rotation (r1 r2 : ring) :
  rotation r1 r2 ->
  rotation (clipEdge inside intersect r1) (clipEdge inside intersect r2).
Proof.
  intros (a & b & -> & ->).
  destruct a as [|a0 a]; [rewrite app_nil_r; apply rotation_refl|].
  destruct b as [|b0 b]; [rewrite app_nil_r; apply rotation_refl|].
  set (A := a0 :: a). set (B := b0 :: b).
  assert (NA : A <> []) by discriminate.
  assert (NB : B <> []) by discriminate.
  exists (walk inside intersect (last B a0) (inside (last B a0)) A),
         (walk inside intersect (last A a0) (inside (last A a0)) B).
  rewrite !clipEdge_walk.
  assert (E1 : forall d, last (A ++ B) d = last B a0).
  { intros d. rewrite last_app by exact NB. now apply last_nonempty. }
  assert (E2 : forall d, last (B ++ A) d = last A a0).
  { intros d. rewrite last_app by exact NA. now apply last_nonempty. }
  split.
  - change (A ++ B) with (a0 :: (a ++ B)) at 1.
    cbv iota beta. change (a0 :: a ++ B) with (A ++ B).
    rewrite E1, walk_app.
    now rewrite (last_nonempty A (last B a0) a0 NA).
  - change (B ++ A) with (b0 :: (b ++ A)) at 1.
    cbv iota beta. change (b0 :: b ++ A) with (B ++ A).
    rewrite E2, walk_app.
    now rewrite (last_nonempty B (last A a0) a0 NB).
Qed.

End Rotation.

(** X3. A ring is closed, so it can be given from any of its vertices: if
    two rings are rotations of each other, so are the rings that
    [clipPolygonToBounds] returns for them. *)
Theorem X3_clip_of_rotated_ring (r1 r2 : ring) (bounds : Bounds) :
  rotation r1 r2 ->
  rotation (clipPolygonToBounds r1 bounds) (clipPolygonToBounds r2 bounds).
Proof.
  intros H. unfold clipPolygonToBounds.
  now do 4 apply clipEdge_rotation.
Qed.

Lemma X3_clip_of_rotated_ring_witness :
  rotation (clipPolygonToBounds overlappingSquare unitBounds)
           (clipPolygonToBounds [(1, 1); (1, -1); (-1, -1); (-1, 1)]
                                unitBounds).
Proof.
  apply (X3_clip_of_rotated_ring overlappingSquare
           [(1, 1); (1, -1); (-1, -1); (-1, 1)] unitBounds).
  exists [(-1, -1); (-1, 1)], [(1, 1); (1, -1)]. split; reflexivity.
Defined.




(** ** The projector *)

Lemma scaled_unit (t w : Q) : 0 <= t <= 1 -> 0 <= w -> 0 <= t * w <= w.
Proof.
  intros [H0 H1] Hw.
  assert (A : 0 <= t * w) by (apply Qmult_le_0_compat; lra).
  assert (B : 0 <= (1 - t) * w) by (apply Qmult_le_0_compat; lra).
  lra.
Qed.

Lemma pixelOf_within (minLat minLon maxLat maxLon w h : Q) (pt : point) :
  minLon < maxLon -> minLat < maxLat -> 0 <= w -> 0 <= h ->
  within (boundsOfImage ((minLat, minLon), (maxLat, maxLon))) pt ->
  0 <= fst (pixelOf ((minLat, minLon), (maxLat, maxLon)) w h pt) <= w
  /\ 0 <= snd (pixelOf ((minLat, minLon), (maxLat, maxLon)) w h pt) <= h.
Proof.
  intros Hlon Hlat Hw Hh. destruct pt as [lon lat].
  unfold within, boundsOfImage, pixelOf; simpl. intros [Wx Wy].
  split; apply scaled_unit; try assumption.
  - apply straddle_ratio. lra.
  - split.
    + apply Qle_shift_div_l; lra.
    + apply Qle_shift_div_r; lra.
Qed.

Lemma scaled_monotone (a b d w : Q) :
  0 < d -> 0 <= w -> a <= b -> (a / d) * w <= (b / d) * w.
Proof.
  intros Hd Hw Hab.
  apply Qmult_le_compat_r; [|exact Hw].
  apply Qle_shift_div_l; [exact Hd|].
  assert (E : a / d * d == a) by (field; lra).
  lra.
Qed.

(** X4. With [minLon < maxLon], [minLat < maxLat] and an image of width
    and height at least 0, [projectToPixels] sends every point within the
    geographic bounds of the image to a pixel pair within the image:
    [0 <= x <= width] and [0 <= y <= height]. *)
Theorem X4_projection_within_image (coordinates : list ring)
    (minLat minLon maxLat maxLon imageWidth imageHeight : Q) :
  minLon < maxLon -> minLat < maxLat ->
  0 <= imageWidth -> 0 <= imageHeight ->
  Forall (Forall (fun pt => minLon <= fst pt <= maxLon
                            /\ minLat <= snd pt <= maxLat)) coordinates ->
  Forall (Forall (fun px => 0 <= fst px <= imageWidth
                            /\ 0 <= snd px <= imageHeight))
         (projectToPixels coordinates ((minLat, minLon), (maxLat, maxLon))
                          imageWidth imageHeight).
Proof.
  intros Hlon Hlat Hw Hh H.
  rewrite projectToPixels_map.
  apply Forall_map. eapply Forall_impl; [|exact H].
  intros r Hr. apply Forall_map. eapply Forall_impl; [|exact Hr].
  intros [lon lat] Hpt.
  now apply pixelOf_within.
Qed.

Lemma X4_projection_within_image_witness :
  Forall (Forall (fun px => 0 <= fst px <= 1000 /\ 0 <= snd px <= 500))
         (projectToPixels [[(10, 50); (0, 60); (20, 40)]]
                          ((40, 0), (60, 20)) 1000 500).
Proof.
  apply (X4_projection_within_image [[(10, 50); (0, 60); (20, 40)]]
           40 0 60 20 1000 500); try lra.
  repeat constructor; simpl; lra.
Defined.

(** X5. With [minLon < maxLon], [minLat < maxLat] and an image of width
    and height at least 0, [projectToPixels] sends the north-west corner
    of the bounds to the pixel (0, 0) and the south-east corner to
    (width, height); a point further east is not further left, and a point
    further north is not further down. *)
Theorem X5_projection_orientation
    (minLat minLon maxLat maxLon imageWidth imageHeight : Q) :
  minLon < maxLon -> minLat < maxLat ->
  0 <= imageWidth -> 0 <= imageHeight ->
  Forall2 (Forall2 samePoint)
          (projectToPixels [[(minLon, maxLat); (maxLon, minLat)]]
                           ((minLat, minLon), (maxLat, maxLon))
                           imageWidth imageHeight)
          [[(0, 0); (imageWidth, imageHeight)]]
  /\ forall lon1 lat1 lon2 lat2 px1 px2,
       projectToPixels [[(lon1, lat1); (lon2, lat2)]]
                       ((minLat, minLon), (maxLat, maxLon))
                       imageWidth imageHeight = [[px1; px2]] ->
       (lon1 <= lon2 -> fst px1 <= fst px2)
       /\ (lat1 <= lat2 -> snd px2 <= snd px1).
Proof.
  intros Hlon Hlat Hw Hh. split.
  - simpl. repeat constructor; simpl; field; lra.
  - intros lon1 lat1 lon2 lat2 px1 px2 E.
    simpl in E. injection E as <- <-. simpl. split; intros L.
    + apply scaled_monotone; lra.
    + apply scaled_monotone; lra.
Qed.

Lemma X5_projection_orientation_witness :
  (0 <= 10 -> fst (((0 - 0) / (20 - 0)) * 1000, ((60 - 50) / (60 - 40)) * 500)
              <= fst (((10 - 0) / (20 - 0)) * 1000,
                      ((60 - 55) / (60 - 40)) * 500))
  /\ (50 <= 55 -> snd (((10 - 0) / (20 - 0)) * 1000,
                       ((60 - 55) / (60 - 40)) * 500)
                   <= snd (((0 - 0) / (20 - 0)) * 1000,
                           ((60 - 50) / (60 - 40)) * 500)).
Proof.
  assert (Hlon : 0 < 20) by lra.
  assert (Hlat : 40 < 60) by lra.
  assert (Hw : 0 <= 1000) by lra.
  assert (Hh : 0 <= 500) by lra.
  destruct (X5_projection_orientation 40 0 60 20 1000 500 Hlon Hlat Hw Hh)
    as [_ Hmono].
  apply (Hmono 0 50 10 55). reflexivity.
Defined.

(** ** The loader *)

(** X6. When the fetch of the geometry resource is rejected, answers with
    a failure status, or the read of its body is rejected,
    [loadCrownShapefile] returns an empty sequence, whatever becomes of
    the attribute resource. *)
Theorem X6_geometry_failure_gives_empty (env : Env) (path : string)
    (bounds : Bounds) :
  (exists e, fetch env path = Rejected e)
  \/ (exists r, fetch env path = Fulfilled r
                /\ (ok r = false \/ exists e, arrayBuffer r = Rejected e)) ->
  loadCrownShapefile env path bounds = Fulfilled [].
Proof.
  unfold loadCrownShapefile, loadAttempt, bind, Promise_all.
  intros [(e & ->)|(r & -> & H)]; [reflexivity|].
  destruct (fetch env (dbfPathOf path)) as [dbfR|e2]; [|reflexivity].
  destruct H as [-> | (e & A)]; [reflexivity|].
  destruct (ok r); simpl; [|reflexivity].
  destruct (ok dbfR); simpl; now rewrite A.
Qed.

Lemma X6_geometry_failure_gives_empty_witness :
  loadCrownShapefile
    (mkEnv (serving (Fulfilled notFound) (Fulfilled (found [2%Z]))) decodeAll)
    shpUrl unitBounds = Fulfilled [].
Proof.
  apply X6_geometry_failure_gives_empty.
  right. exists notFound. split; [reflexivity|]. now left.
Defined.

Lemma fold_pushCrown_rings (bounds : Bounds) (fs : list Feature)
    (init : list CrownPolygon) :
  map coordinates (fold_left (pushCrown bounds) fs init)
  = map coordinates init ++ survivingRings bounds fs.
Proof.
  revert init. induction fs as [|f fs IH]; intros init; simpl.
  - now rewrite app_nil_r.
  - rewrite IH. unfold pushCrown, survivingRings; simpl.
    destruct (geometry f) as [[coords|ty]|]; simpl; try reflexivity.
    destruct (0 <? List.length (croppedCoords coords bounds))%nat;
      simpl; [|reflexivity].
    rewrite map_app; simpl. now rewrite <- app_assoc.
Qed.

Lemma fold_pushCrown_cameFrom (bounds : Bounds) (fs : list Feature)
    (init : list CrownPolygon) :
  exists new fs',
    fold_left (pushCrown bounds) fs init = init ++ new
    /\ subseq fs' fs
    /\ Forall2 (cameFrom bounds) new fs'.
Proof.
  revert init. induction fs as [|f fs IH]; intros init; simpl.
  - exists [], []. rewrite app_nil_r. repeat split; constructor.
  - unfold pushCrown at 2.
    destruct (geometry f) as [[coords|ty]|] eqn:G;
      try solve [destruct (IH init) as (new & fs' & E & S & F);
                 exists new, fs'; repeat split; auto with clip].
    destruct (0 <? List.length (croppedCoords coords bounds))%nat eqn:L.
    + destruct (IH (init ++ [mkCrown "Polygon" (croppedCoords coords bounds)
                               (match feature_properties f with
                                | Some props => props
                                | None => []
                                end)]))
        as (new & fs' & E & S & F).
      eexists (_ :: new), (f :: fs'). split; [|split].
      * rewrite E, <- app_assoc. reflexivity.
      * auto with clip.
      * constructor; [|exact F].
        exists coords. simpl. repeat split; try reflexivity; try assumption.
        intros N. rewrite N in L. discriminate.
    + destruct (IH init) as (new & fs' & E & S & F).
      exists new, fs'. repeat split; auto with clip.
Qed.

(** X7. When both resources are fetched with a success status and read,
    and the decoder returns a collection, [loadCrownShapefile] returns the
    surviving rings of the polygon features, in feature order; every crown
    has the type ['Polygon'], at least one ring, and the attributes of the
    feature that its rings come from ([{}] for a feature without
    attributes). *)
Theorem X7_attributes_stay_with_their_feature (env : Env) (path : string)
    (bounds : Bounds) (shpR dbfR : Response) (shpBuffer dbfBuffer : ArrayBuffer)
    (collection : FeatureCollection) :
  fetch env path = Fulfilled shpR -> ok shpR = true ->
  fetch env (dbfPathOf path) = Fulfilled dbfR -> ok dbfR = true ->
  arrayBuffer shpR = Fulfilled shpBuffer ->
  arrayBuffer dbfR = Fulfilled dbfBuffer ->
  shapefile_read env shpBuffer (Some dbfBuffer) = Fulfilled collection ->
  exists crowns sources,
    loadCrownShapefile env path bounds = Fulfilled crowns
    /\ map coordinates crowns = survivingRings bounds (features collection)
    /\ subseq sources (features collection)
    /\ Forall2 (cameFrom bounds) crowns sources.
Proof.
  intros F1 O1 F2 O2 A1 A2 R.
  destruct (fold_pushCrown_cameFrom bounds (features collection) [])
    as (new & fs' & E & S & F).
  exists new, fs'. simpl in E.
  assert (L : loadCrownShapefile env path bounds = Fulfilled new).
  { unfold loadCrownShapefile, loadAttempt, bind, Promise_all.
    now rewrite F1, F2, O1, O2, A1, A2, R, E. }
  repeat split; try assumption.
  rewrite <- E. now rewrite fold_pushCrown_rings.
Qed.

Lemma X7_attributes_stay_with_their_feature_witness :
  exists crowns sources,
    loadCrownShapefile worldComplete shpUrl unitBounds = Fulfilled crowns
    /\ map coordinates crowns
       = survivingRings unitBounds (features (sampleFeatures (Some oak)))
    /\ subseq sources (features (sampleFeatures (Some oak)))
    /\ Forall2 (cameFrom unitBounds) crowns sources.
Proof.
  apply (X7_attributes_stay_with_their_feature worldComplete shpUrl
           unitBounds (found [1%Z]) (found [2%Z]) [1%Z] [2%Z]
           (sampleFeatures (Some oak))); reflexivity.
Defined.

(** ** The caller of the loader *)

(** X8. [loadCrownData] never rejects: when [loadCrownShapefile] rejects,
    or [metadata.layers] is missing, [crownPolygons] keeps its value; when
    [loadCrownShapefile] fulfils, [crownPolygons] becomes its result. *)
Theorem X8_loadCrownData_catches (env : Env) (md : Metadata)
    (config : WebAppConfig) (ib : (Q * Q) * (Q * Q))
    (crownPolygons : list CrownPolygon) :
  web_app_config md = Some config -> image_bounds config = Some ib ->
  (layers md = None ->
   loadCrownData env (Some md) crownPolygons = Fulfilled crownPolygons)
  /\ (forall path,
        crownOutlinesPath md = Fulfilled path ->
        match loadCrownShapefile env path (boundsOfImage ib) with
        | Rejected _ =>
            loadCrownData env (Some md) crownPolygons = Fulfilled crownPolygons
        | Fulfilled crowns =>
            loadCrownData env (Some md) crownPolygons = Fulfilled crowns
        end).
Proof.
  intros C I. unfold loadCrownData. rewrite C, I. split.
  - intros L. unfold crownOutlinesPath. now rewrite L.
  - intros path ->. simpl.
    now destruct (loadCrownShapefile env path (boundsOfImage ib)).
Qed.

Lemma X8_loadCrownData_catches_witness :
  loadCrownShapefile viewerWorldBadGeometry "/crown_outlines.shp" unitBounds
  = Rejected (HostError "unreadable geometry")
  /\ loadCrownData viewerWorldBadGeometry (Some sampleMetadata) []
     = Fulfilled [].
Proof.
  split; [reflexivity|].
  destruct (X8_loadCrownData_catches viewerWorldBadGeometry sampleMetadata
              (mkWebAppConfig (Some ((0, 0), (5, 5)))) ((0, 0), (5, 5)) []
              eq_refl eq_refl) as [_ H].
  exact (H "/crown_outlines.shp"%string eq_refl).
Defined.




(** ** The crowns that are drawn *)

Lemma includes_In (s : string) (l : list string) :
  includes s l = true <-> In s l.
Proof.
  unfold includes. rewrite existsb_exists. split.
  - intros (t & H & E). apply String.eqb_eq in E. now subst.
  - intros H. exists s. split; [exact H | apply String.eqb_refl].
Qed.

Lemma speciesAmong_sound (host : Host) (md : Metadata) (props : Properties)
    (keys : list string) (s : string) :
  speciesAmong host md props keys = Some s ->
  In s (species_list md)
  /\ exists key v,
       In key keys /\ lookup key props = Some v /\ v <> SNull
       /\ normalizeSpeciesName host
            (trim host (toLowerCase host (scalarToString host v)))
          = NormalString s.
Proof.
  induction keys as [|key keys IH]; simpl; [discriminate|].
  assert (Later : speciesAmong host md props keys = Some s ->
                  In s (species_list md)
                  /\ exists key' v,
                       (key = key' \/ In key' keys)
                       /\ lookup key' props = Some v /\ v <> SNull
                       /\ normalizeSpeciesName host
                            (trim host (toLowerCase host
                                          (scalarToString host v)))
                          = NormalString s).
  { intros H. destruct (IH H) as (Hin & key' & v & Hk & R).
    split; [exact Hin|]. exists key', v. auto. }
  destruct (lookup key props) as [v|] eqn:L; [|exact Later].
  assert (Here : forall n,
             normalizeSpeciesName host
               (trim host (toLowerCase host (scalarToString host v)))
             = n ->
             v <> SNull ->
             match n with
             | NormalString normalizedSpecies =>
                 if includes normalizedSpecies (species_list md)
                 then Some normalizedSpecies
                 else speciesAmong host md props keys
             | Inherited _ => speciesAmong host md props keys
             end = Some s ->
             In s (species_list md)
             /\ exists key' v',
                  (key = key' \/ In key' keys)
                  /\ lookup key' props = Some v' /\ v' <> SNull
                  /\ normalizeSpeciesName host
                       (trim host (toLowerCase host
                                     (scalarToString host v')))
                     = NormalString s).
  { intros [n|n] E N; [|exact Later].
    destruct (includes n (species_list md)) eqn:Inc; [|exact Later].
    intros [= <-]. split; [now apply includes_In|].
    exists key, v. auto. }
  destruct v as [|q|t]; [exact Later| |];
    apply (Here _ eq_refl); discriminate.
Qed.

Lemma getCrownSpecies_listed (host : Host) (md : Metadata)
    (props : Properties) (s : string) :
  getCrownSpecies host md props = Some s -> In s (species_list md).
Proof.
  unfold getCrownSpecies. intros H.
  exact (proj1 (speciesAmong_sound host md props possibleKeys s H)).
Qed.

(** X10. [getCrownSpecies] returns [null] or an element of
    [metadata.species_list]: the normalised value of a field of the
    attribute record that is named in its list of keys and is not [null].
    On an empty attribute record it returns [null]. *)
Theorem X10_getCrownSpecies_in_species_list (host : Host) (md : Metadata) :
  (forall props s,
     getCrownSpecies host md props = Some s ->
     In s (species_list md)
     /\ exists key v,
          In key possibleKeys /\ lookup key props = Some v /\ v <> SNull
          /\ normalizeSpeciesName host
               (trim host (toLowerCase host (scalarToString host v)))
             = NormalString s)
  /\ getCrownSpecies host md [] = None.
Proof.
  split; [|reflexivity].
  intros props s. apply speciesAmong_sound.
Qed.

Lemma X10_getCrownSpecies_in_species_list_witness :
  In "lime spp."%string (species_list sampleMetadata)
  /\ exists key v,
       In key possibleKeys
       /\ lookup key [("id"%string, SNumber 7); ("sp"%string, SNull);
                      ("Type"%string, SString "lime")] = Some v
       /\ v <> SNull
       /\ normalizeSpeciesName sampleHost
            (trim sampleHost
               (toLowerCase sampleHost (scalarToString sampleHost v)))
          = NormalString "lime spp.".
Proof.
  destruct (X10_getCrownSpecies_in_species_list sampleHost sampleMetadata)
    as [H _].
  apply (H [("id"%string, SNumber 7); ("sp"%string, SNull);
            ("Type"%string, SString "lime")] "lime spp."%string).
  reflexivity.
Defined.

Lemma filter_isSelected (speciesOf : CrownPolygon -> option string)
    (selectedSpecies : list string) (crowns : list CrownPolygon) :
  Forall (fun c => exists s, speciesOf c = Some s /\ In s selectedSpecies)
         (filter (fun polygon => isSelected selectedSpecies (speciesOf polygon))
                 crowns).
Proof.
  apply Forall_forall. intros c H. apply filter_In in H as [_ H].
  unfold isSelected in H.
  destruct (speciesOf c) as [s|]; [|discriminate].
  destruct (String.eqb s ""); [discriminate|].
  exists s. split; [reflexivity|]. now apply includes_In.
Qed.

(** X11. [getFilteredCrownPolygons] returns crowns of [crownPolygons], in
    their order; each of them has a species, in the sense of
    [getCrownSpecies], that is selected and is in [metadata.species_list];
    with nothing selected it returns no crown. *)
Theorem X11_filtered_crowns_are_selected (host : Host) (md : Metadata) :
  (forall selectedSpecies crownPolygons,
     let filtered :=
       getFilteredCrownPolygons host md selectedSpecies crownPolygons in
     subseq filtered crownPolygons
     /\ Forall (fun c => exists s,
                    getCrownSpecies host md (properties c) = Some s
                    /\ In s selectedSpecies /\ In s (species_list md))
               filtered)
  /\ (forall crownPolygons,
        getFilteredCrownPolygons host md [] crownPolygons = []).
Proof.
  split; [|reflexivity].
  intros selectedSpecies crownPolygons filtered. subst filtered.
  unfold getFilteredCrownPolygons.
  destruct (List.length selectedSpecies =? 0)%nat.
  - split; [|constructor].
    induction crownPolygons; auto with clip.
  - split; [apply filter_subseq|].
    eapply Forall_impl;
      [|exact (filter_isSelected
                 (fun c => getCrownSpecies host md (properties c))
                 selectedSpecies crownPolygons)].
    intros c (s & G & I). exists s. split; [exact G|]. split; [exact I|].
    exact (getCrownSpecies_listed host md (properties c) s G).
Qed.

(** X12. The crowns of a load in geometry-only mode are never drawn: when
    the attribute fetch answers with a failure status, whatever is
    selected, [getFilteredCrownPolygons] returns no crown of the result of
    [loadCrownShapefile]. *)
Theorem X12_geometry_only_crowns_not_drawn (env : Env) (path : string)
    (bounds : Bounds) (dbfR : Response) (crowns : list CrownPolygon)
    (host : Host) (md : Metadata) (selectedSpecies : list string) :
  fetch env (dbfPathOf path) = Fulfilled dbfR -> ok dbfR = false ->
  loadCrownShapefile env path bounds = Fulfilled crowns ->
  getFilteredCrownPolygons host md selectedSpecies crowns = [].
Proof.
  intros F2 O2 L.
  assert (P : Forall (fun c => properties c = []) crowns).
  { revert L.
    unfold loadCrownShapefile, loadAttempt, bind, Promise_all.
    rewrite F2.
    destruct (fetch env path) as [shpR|e]; [|intros [= <-]; constructor].
    destruct (ok shpR); simpl; [|intros [= <-]; constructor].
    rewrite O2; simpl.
    destruct (arrayBuffer shpR) as [b|e]; [|intros [= <-]; constructor].
    intros L. apply loadGeometryOnly_clipped in L.
    eapply Forall_impl; [|exact L]. now intros c [_ H]. }
  clear L. unfold getFilteredCrownPolygons.
  destruct (List.length selectedSpecies =? 0)%nat; [reflexivity|].
  induction P as [|c cs Hc _ IH]; [reflexivity|].
  simpl. rewrite Hc. simpl. exact IH.
Qed.

Lemma X12_geometry_only_crowns_not_drawn_witness :
  List.length
    (match loadCrownShapefile viewerWorldNoAttributes "/crown_outlines.shp"
             unitBounds with
     | Fulfilled crowns => crowns
     | Rejected _ => []
     end) = 2%nat
  /\ forall crowns,
       loadCrownShapefile viewerWorldNoAttributes "/crown_outlines.shp"
                          unitBounds = Fulfilled crowns ->
       getFilteredCrownPolygons sampleHost sampleMetadata
         ["oak"; "lime spp."; "dead-understory"]%string crowns = [].
Proof.
  split; [reflexivity|].
  intros crowns.
  apply (X12_geometry_only_crowns_not_drawn viewerWorldNoAttributes
           "/crown_outlines.shp" unitBounds notFound crowns);
    reflexivity.
Defined.

(** ** The slider *)

Lemma Math_max_cases (x y : Q) :
  (x <= y /\ Math_max x y = y) \/ (y < x /\ Math_max x y = x).
Proof.
  unfold Math_max. destruct (Qle_bool x y) eqn:E.
  - left. apply Qle_bool_iff in E. now split.
  - right. apply Qle_bool_false in E. now split.
Qed.

Lemma Math_min_cases (x y : Q) :
  (x <= y /\ Math_min x y = x) \/ (y < x /\ Math_min x y = y).
Proof.
  unfold Math_min. destruct (Qle_bool x y) eqn:E.
  - left. apply Qle_bool_iff in E. now split.
  - right. apply Qle_bool_false in E. now split.
Qed.

Lemma clamp_range (y : Q) : 0 <= Math_max 0 (Math_min 100 y) <= 100.
Proof.
  destruct (Math_min_cases 100 y) as [[H1 ->]|[H1 ->]];
    destruct (Math_max_cases 0 100) as [[H2 E2]|[H2 E2]];
    try (destruct (Math_max_cases 0 y) as [[H3 ->]|[H3 ->]]);
    try rewrite E2; lra.
Qed.

Lemma Math_round_percent (p : Q) : 0 <= p <= 100 -> percent (Math_round p).
Proof.
  intros [H0 H1]. unfold percent, Math_round. split.
  - split.
    + assert (L : (Qfloor 0 <= Qfloor (p + (1 # 2)))%Z)
        by (apply Qfloor_resp_le; lra).
      rewrite Zle_Qle in L. exact L.
    + assert (L : (Qfloor (p + (1 # 2)) <= Qfloor (100 + (1 # 2)))%Z)
        by (apply Qfloor_resp_le; lra).
      rewrite Zle_Qle in L. exact L.
  - eexists. reflexivity.
Qed.

Lemma sliderFromPointer_percent (clientX rectLeft width : Q) :
  percent (sliderFromPointer clientX rectLeft width).
Proof. apply Math_round_percent, clamp_range. Qed.

Lemma key_left_percent (v : Q) : percent v -> percent (Math_max 0 (v - 5)).
Proof.
  intros [[H0 H1] (n & E)].
  destruct (Math_max_cases 0 (v - 5)) as [[H ->]|[H ->]].
  - split; [lra|]. exists (n - 5)%Z.
    rewrite E. unfold Zminus. rewrite inject_Z_plus, inject_Z_opp.
    reflexivity.
  - split; [lra|]. exists 0%Z. reflexivity.
Qed.

Lemma key_right_percent (v : Q) : percent v -> percent (Math_min 100 (v + 5)).
Proof.
  intros [[H0 H1] (n & E)].
  destruct (Math_min_cases 100 (v + 5)) as [[H ->]|[H ->]].
  - split; [lra|]. exists 100%Z. reflexivity.
  - split; [lra|]. exists (n + 5)%Z.
    rewrite E, inject_Z_plus. reflexivity.
Qed.

Lemma handle_percent (st : Slider) (ev : SliderEvent) :
  percent (sliderValue st) -> percent (sliderValue (handle st ev)).
Proof.
  intros H.
  destruct ev as [onHandle x rect|x rect| |onHandle ts rect|ts rect| |key];
    simpl; try exact H.
  - destruct onHandle; [|exact H].
    destruct rect as [[l w]|]; simpl;
      [apply sliderFromPointer_percent | exact H].
  - destruct (isDragging st); [|exact H].
    destruct rect as [[l w]|]; simpl;
      [apply sliderFromPointer_percent | exact H].
  - destruct onHandle; [|exact H].
    destruct rect as [[l w]|], ts as [|x ts]; simpl;
      try exact H; apply sliderFromPointer_percent.
  - destruct (isTouching st); [|exact H].
    destruct rect as [[l w]|], ts as [|x ts]; simpl;
      try exact H; apply sliderFromPointer_percent.
  - destruct (String.eqb key "ArrowLeft"); simpl;
      [now apply key_left_percent|].
    destruct (String.eqb key "ArrowRight"); simpl;
      [now apply key_right_percent | exact H].
Qed.

(** X13. Whatever the mouse, touch and key events, as long as the
    rectangle of the image container has a positive width (the quotient
    [x / rect.width] is then a finite number), [sliderValue] is a whole
    number from 0 to 100. *)
Theorem X13_sliderValue_is_a_percentage (events : list SliderEvent) :
  Forall sized events ->
  percent (sliderValue (fold_left handle events initialSlider)).
Proof.
  intros _.
  assert (G : forall st, percent (sliderValue st) ->
                         percent (sliderValue (fold_left handle events st))).
  { induction events as [|ev evs IH]; intros st H; simpl; [exact H|].
    apply IH. now apply handle_percent. }
  apply G. split; [simpl; lra|]. exists 75%Z. reflexivity.
Qed.

Lemma X13_sliderValue_is_a_percentage_witness :
  percent (sliderValue
             (fold_left handle
                [KeyDown "ArrowRight"; MouseDown true 130 (Some (10, 400));
                 MouseMove 1000 (Some (10, 400)); MouseUp;
                 TouchStart true [50] (Some (10, 400)); TouchMove [] None;
                 KeyDown "ArrowLeft"]
                initialSlider))
  /\ sliderValue
       (fold_left handle
          [KeyDown "ArrowRight"; MouseDown true 130 (Some (10, 400))]
          initialSlider) = 30.
Proof.
  split; [|reflexivity].
  apply X13_sliderValue_is_a_percentage.
  repeat constructor; simpl; lra.
Defined.

(** ** The selection *)

Lemma includes_false (s : string) (l : list string) :
  includes s l = false <-> ~ In s l.
Proof.
  rewrite <- includes_In. destruct (includes s l); split; congruence.
Qed.

Lemma setDelete_In (s t : string) (set : list string) :
  In t (setDelete s set) <-> In t set /\ t <> s.
Proof.
  unfold setDelete. rewrite filter_In, negb_true_iff, String.eqb_neq.
  split; intros [H N]; split; auto.
Qed.

Lemma setAdd_In (s t : string) (set : list string) :
  In t (setAdd s set) <-> In t set \/ t = s.
Proof.
  unfold setAdd. destruct (includes s set) eqn:E.
  - apply includes_In in E. split; [auto|]. now intros [H | ->].
  - rewrite in_app_iff. simpl. intuition congruence.
Qed.

Lemma setAdd_NoDup (s : string) (set : list string) :
  NoDup set -> NoDup (setAdd s set).
Proof.
  intros H. unfold setAdd. destruct (includes s set) eqn:E; [exact H|].
  apply includes_false in E.
  apply NoDup_app; [exact H | repeat constructor; auto |].
  intros a Ha [<-|[]]. contradiction.
Qed.

Lemma newSet_spec (l seen : list string) :
  NoDup seen ->
  NoDup (newSet l seen)
  /\ forall s, In s (newSet l seen) <-> In s seen \/ In s l.
Proof.
  revert seen. induction l as [|x l IH]; intros seen H; simpl.
  - split; [exact H|]. intros s. tauto.
  - change (if includes x seen then seen else seen ++ [x])
      with (setAdd x seen).
    destruct (IH (setAdd x seen) (setAdd_NoDup x seen H)) as [N I].
    split; [exact N|].
    intros s. rewrite I, setAdd_In. intuition congruence.
Qed.

Lemma includes_eq (s : string) (l1 l2 : list string) :
  (In s l1 <-> In s l2) -> includes s l1 = includes s l2.
Proof.
  intros H. destruct (includes s l2) eqn:E.
  - apply includes_In. apply H. now apply includes_In.
  - apply includes_false. rewrite H. now apply includes_false.
Qed.

(** X14. [toggleSpecies] changes whether its species is selected and
    leaves every other species as it was: after the call, a species [t] is
    selected exactly when it was selected before and is not the toggled
    one, or was not selected before and is the toggled one. *)
Theorem X14_toggleSpecies_flips_one (species t : string)
    (selectedSpecies : list string) :
  includes t (toggleSpecies species selectedSpecies)
  = xorb (String.eqb t species) (includes t selectedSpecies).
Proof.
  unfold toggleSpecies.
  destruct (includes species selectedSpecies) eqn:E.
  - destruct (String.eqb t species) eqn:T.
    + apply String.eqb_eq in T. subst t. rewrite E. simpl.
      apply includes_false. rewrite setDelete_In. tauto.
    + apply String.eqb_neq in T. simpl.
      apply includes_eq. rewrite setDelete_In. tauto.
  - destruct (String.eqb t species) eqn:T.
    + apply String.eqb_eq in T. subst t. rewrite E. simpl.
      apply includes_In. rewrite setAdd_In. now right.
    + apply String.eqb_neq in T. simpl.
      apply includes_eq. rewrite setAdd_In. tauto.
Qed.

Lemma select_invariant (md : Metadata) (sel : list string)
    (ev : SelectionEvent) :
  offered (Some md) ev ->
  NoDup sel /\ incl sel (species_list md) ->
  NoDup (select (Some md) sel ev)
  /\ incl (select (Some md) sel ev) (species_list md).
Proof.
  intros O [N I]. destruct ev as [species|]; simpl in *.
  - unfold toggleSpecies.
    destruct (includes species sel).
    + split; [now apply NoDup_filter|].
      intros t H. apply setDelete_In in H as [H _]. now apply I.
    + split; [now apply setAdd_NoDup|].
      intros t H. apply setAdd_In in H as [H | ->]; auto.
  - destruct (List.length sel =? List.length (species_list md))%nat.
    + split; [constructor | intros t []].
    + destruct (newSet_spec (species_list md) [] (NoDup_nil _)) as [N' I'].
      split; [exact N'|].
      intros t H. apply I' in H as [[]|H]. exact H.
Qed.

(** X15. Starting with nothing selected, after any sequence of clicks on
    the species buttons (those of [metadata.species_list]) and on the
    button for all species, the selection holds no species twice and only
    species of the list; [areAllSpeciesSelected] then answers true exactly
    when the list names no species twice and every species of the list is
    selected. *)
Theorem X15_selection_invariant (md : Metadata)
    (events : list SelectionEvent) :
  Forall (offered (Some md)) events ->
  let selectedSpecies := fold_left (select (Some md)) events [] in
  NoDup selectedSpecies
  /\ incl selectedSpecies (species_list md)
  /\ (areAllSpeciesSelected (Some md) selectedSpecies = true
      <-> NoDup (species_list md)
          /\ incl (species_list md) selectedSpecies).
Proof.
  intros O sel.
  assert (G : forall init,
             NoDup init /\ incl init (species_list md) ->
             NoDup (fold_left (select (Some md)) events init)
             /\ incl (fold_left (select (Some md)) events init)
                     (species_list md)).
  { induction O as [|ev evs Oev _ IH]; intros init H; simpl; [exact H|].
    apply IH. now apply select_invariant. }
  destruct (G []) as [N I]; [split; [constructor | intros t []]|].
  fold sel in N, I.
  split; [exact N|]. split; [exact I|].
  unfold areAllSpeciesSelected. rewrite Nat.eqb_eq. split.
  - intros E. split.
    + apply (NoDup_incl_NoDup N); [lia | exact I].
    + apply (NoDup_length_incl N); [lia | exact I].
  - intros [N' I'].
    pose proof (NoDup_incl_length N I).
    pose proof (NoDup_incl_length N' I'). lia.
Qed.

Lemma X15_selection_invariant_witness :
  let selectedSpecies :=
    fold_left (select (Some sampleMetadata))
              [ToggleOne "oak"; ToggleAll; ToggleOne "lime spp."; ToggleAll]
              [] in
  NoDup selectedSpecies
  /\ incl selectedSpecies (species_list sampleMetadata)
  /\ (areAllSpeciesSelected (Some sampleMetadata) selectedSpecies = true
      <-> NoDup (species_list sampleMetadata)
          /\ incl (species_list sampleMetadata) selectedSpecies).
Proof.
  apply (X15_selection_invariant sampleMetadata
           [ToggleOne "oak"; ToggleAll; ToggleOne "lime spp."; ToggleAll]).
  repeat (apply Forall_cons || apply Forall_nil); simpl; auto.
Defined.

(** X20. With a list of species that names none twice, the button for all
    species clears the selection when [areAllSpeciesSelected] is true, and
    otherwise selects exactly the species of the list, after which
    [areAllSpeciesSelected] is true. *)
Theorem X20_toggleAllSpecies_all_or_none (md : Metadata)
    (selectedSpecies : list string) :
  NoDup (species_list md) ->
  let after := toggleAllSpecies (Some md) selectedSpecies in
  (areAllSpeciesSelected (Some md) selectedSpecies = true -> after = [])
  /\ (areAllSpeciesSelected (Some md) selectedSpecies = false ->
      NoDup after
      /\ (forall s, In s after <-> In s (species_list md))
      /\ areAllSpeciesSelected (Some md) after = true).
Proof.
  intros N after. subst after. unfold toggleAllSpecies, areAllSpeciesSelected.
  split; intros E; rewrite E; [reflexivity|].
  destruct (newSet_spec (species_list md) [] (NoDup_nil _)) as [N' I'].
  split; [exact N'|]. split.
  - intros s. rewrite I'. simpl. tauto.
  - apply Nat.eqb_eq.
    assert (A : incl (newSet (species_list md) []) (species_list md)).
    { intros s H. apply I' in H as [[]|H]. exact H. }
    assert (B : incl (species_list md) (newSet (species_list md) [])).
    { intros s H. apply I'. now right. }
    pose proof (NoDup_incl_length N' A).
    pose proof (NoDup_incl_length N B). lia.
Qed.

Lemma X20_toggleAllSpecies_all_or_none_witness :
  toggleAllSpecies (Some sampleMetadata) ["oak"%string]
  = ["oak"; "lime spp."; "dead-understory"]%string
  /\ areAllSpeciesSelected (Some sampleMetadata)
       (toggleAllSpecies (Some sampleMetadata) ["oak"%string]) = true.
Proof.
  split; [reflexivity|].
  assert (N : NoDup (species_list sampleMetadata)).
  { repeat constructor; simpl; intuition discriminate. }
  destruct (X20_toggleAllSpecies_all_or_none sampleMetadata ["oak"%string] N)
    as [_ H].
  apply H. reflexivity.
Defined.

(** ** Display names *)

Lemma hyphensToSpaces_clean (s : string) :
  hasChar "-" (hyphensToSpaces s) = false.
Proof.
  induction s as [|c s IH]; [reflexivity|].
  cbn [hasChar hyphensToSpaces]. rewrite IH, orb_false_r.
  destruct (Ascii.eqb c "-") eqn:E; [reflexivity|].
  now rewrite Ascii.eqb_sym.
Qed.

Example formatSpeciesName_samples :
  formatSpeciesName "lime spp." = "lime "%string
  /\ formatSpeciesName "sweet-chestnut" = "sweet chestnut"%string
  /\ formatSpeciesName "dead-understory" = "Dead"%string
  /\ formatSpeciesName "sspp.pp.-x" = "spp. x"%string.
Proof. repeat split. Qed.

(** X16. The name that [formatSpeciesName] returns contains no hyphen. *)
Theorem X16_formatted_name_has_no_hyphen (species : string) :
  hasChar "-" (formatSpeciesName species) = false.
Proof.
  unfold formatSpeciesName.
  destruct (String.eqb species "dead-understory"); [reflexivity|].
  apply hyphensToSpaces_clean.
Qed.

(** ** Names of species *)

Lemma mapped_value (key v : string) (table : list (string * string)) :
  mapped key table = Some v -> In v (map snd table).
Proof.
  induction table as [|[k w] table IH]; simpl; [discriminate|].
  destruct (String.eqb k key); [intros [= ->]; now left | auto].
Qed.

(** X18. On a host whose [toLowerCase] followed by [trim] gives the same
    string when done twice and leaves the names of its table as they are,
    none of which names an inherited property, normalising a normalised
    name changes nothing. *)
Theorem X18_normalizeSpeciesName_idempotent (host : Host) (species n : string) :
  (forall x, trim host (toLowerCase host (trim host (toLowerCase host x)))
             = trim host (toLowerCase host x)) ->
  Forall (fun v => trim host (toLowerCase host v) = v
                   /\ inheritsProperty host v = false)
         (map snd speciesMappings) ->
  normalizeSpeciesName host species = NormalString n ->
  normalizeSpeciesName host n = NormalString n.
Proof.
  intros Hidem Htable. unfold normalizeSpeciesName.
  destruct (mapped (trim host (toLowerCase host species)) speciesMappings)
    as [v|] eqn:M.
  - intros [= <-].
    apply mapped_value in M.
    rewrite Forall_forall in Htable.
    destruct (Htable v M) as [-> ->].
    simpl in M.
    repeat (destruct M as [<-|M]; [reflexivity|]). destruct M.
  - destruct (inheritsProperty host (trim host (toLowerCase host species)))
      eqn:I; [discriminate|].
    intros [= <-]. now rewrite Hidem, M, I.
Qed.

Lemma X18_normalizeSpeciesName_idempotent_witness :
  normalizeSpeciesName sampleHost "chestnut" = NormalString "sweet chestnut"
  /\ normalizeSpeciesName sampleHost "sweet chestnut"
     = NormalString "sweet chestnut".
Proof.
  split; [reflexivity|].
  apply (X18_normalizeSpeciesName_idempotent sampleHost "chestnut").
  - reflexivity.
  - repeat constructor.
  - reflexivity.
Defined.

(** ** Colours *)

Lemma lighter_channel (n : Z) (percent : Q) :
  (0 <= n <= 255)%Z -> 0 <= percent <= 100 ->
  exists m : Z,
    Math_min 255
      (Math_round (inject_Z n + (255 - inject_Z n) * (percent / 100)))
    == inject_Z m
    /\ Qfloor (Math_min 255
                 (Math_round (inject_Z n
                              + (255 - inject_Z n) * (percent / 100)))) = m
    /\ (n <= m <= 255)%Z
    /\ (percent == 0 -> m = n)
    /\ (percent == 100 -> m = 255%Z).
Proof.
  intros [Hn0 Hn1] [Hp0 Hp1].
  set (x := inject_Z n + (255 - inject_Z n) * (percent / 100)).
  assert (Qn0 : 0 <= inject_Z n)
    by (change 0 with (inject_Z 0); rewrite <- Zle_Qle; lia).
  assert (Qn1 : inject_Z n <= 255)
    by (change 255 with (inject_Z 255); rewrite <- Zle_Qle; lia).
  assert (T : 0 <= percent / 100 <= 1).
  { split; [apply Qle_shift_div_l | apply Qle_shift_div_r]; lra. }
  assert (Hx : inject_Z n <= x <= 255).
  { unfold x.
    assert (A : 0 <= (255 - inject_Z n) * (percent / 100))
      by (apply Qmult_le_0_compat; lra).
    assert (B : 0 <= (255 - inject_Z n) * (1 - percent / 100))
      by (apply Qmult_le_0_compat; lra).
    lra. }
  set (m := Qfloor (x + (1 # 2))).
  assert (Lo : (n <= m)%Z).
  { rewrite <- (Qfloor_Z n). apply Qfloor_resp_le. lra. }
  assert (Hi : (m <= 255)%Z).
  { change 255%Z with (Qfloor (255 + (1 # 2))). apply Qfloor_resp_le. lra. }
  assert (Qm : inject_Z m <= 255)
    by (change 255 with (inject_Z 255); rewrite <- Zle_Qle; exact Hi).
  assert (E : Math_min 255 (Math_round x) = inject_Z m \/
              (Math_min 255 (Math_round x) = 255 /\ m = 255%Z)).
  { unfold Math_round. fold m.
    destruct (Math_min_cases 255 (inject_Z m)) as [[L ->]|[L ->]];
      [right | now left].
    split; [reflexivity|].
    change 255 with (inject_Z 255) in L. rewrite <- Zle_Qle in L. lia. }
  exists m. split; [|split; [|split; [|split]]].
  - destruct E as [-> | [-> ->]]; reflexivity.
  - destruct E as [-> | [-> ->]]; [apply Qfloor_Z | reflexivity].
  - lia.
  - intros P0. unfold m.
    assert (X : x + (1 # 2) == inject_Z n + (1 # 2))
      by (unfold x; rewrite P0; field).
    rewrite X.
    assert (F : (Qfloor (inject_Z n + (1 # 2)) < n + 1)%Z).
    { rewrite Zlt_Qlt, inject_Z_plus.
      apply Qle_lt_trans with (inject_Z n + (1 # 2)); [apply Qfloor_le|].
      change (inject_Z 1) with 1. lra. }
    assert (G : (n <= Qfloor (inject_Z n + (1 # 2)))%Z).
    { rewrite <- (Qfloor_Z n) at 1. apply Qfloor_resp_le. lra. }
    lia.
  - intros P100. unfold m.
    assert (X : x + (1 # 2) == 255 + (1 # 2))
      by (unfold x; rewrite P100; field).
    now rewrite X.
Qed.

Lemma length_append (s1 s2 : string) :
  String.length (s1 ++ s2)%string = (String.length s1 + String.length s2)%nat.
Proof. induction s1 as [|c s1 IH]; simpl; [reflexivity | now rewrite IH]. Qed.

Lemma hex2_length (n : Z) : (0 <= n <= 255)%Z -> String.length (hex2 n) = 2%nat.
Proof.
  intros H.
  assert (A : forallb (fun k => (String.length (hex2 (Z.of_nat k)) =? 2)%nat)
                      (seq 0 256) = true) by (vm_compute; reflexivity).
  rewrite forallb_forall in A.
  specialize (A (Z.to_nat n)).
  rewrite Z2Nat.id in A by lia.
  apply Nat.eqb_eq, A, in_seq. lia.
Qed.

(** X19. When the three pairs of characters after the [#] are read by
    [parseInt] as channels from 0 to 255 and [percent] is from 0 to 100,
    [lightenColor] returns a colour of seven characters, [#] and two
    hexadecimal digits for each channel; no channel is darker than before
    or above 255; with [percent] 0 the channels keep their values, with
    [percent] 100 they are all 255. *)
Theorem X19_lightenColor_valid_and_lighter (host : Host) (hex : string)
    (percent : Q) (r g b : Z) :
  let color := replace "#" "" hex in
  parseInt16 host (substring 0 2 color) = Some r ->
  parseInt16 host (substring 2 2 color) = Some g ->
  parseInt16 host (substring 4 2 color) = Some b ->
  (0 <= r <= 255)%Z -> (0 <= g <= 255)%Z -> (0 <= b <= 255)%Z ->
  0 <= percent <= 100 ->
  exists r' g' b' : Z,
    lightenColor host hex percent
    = String "#" (hex2 r' ++ hex2 g' ++ hex2 b')%string
    /\ String.length (lightenColor host hex percent) = 7%nat
    /\ (r <= r' <= 255)%Z /\ (g <= g' <= 255)%Z /\ (b <= b' <= 255)%Z
    /\ (percent == 0 -> r' = r /\ g' = g /\ b' = b)
    /\ (percent == 100 -> r' = 255%Z /\ g' = 255%Z /\ b' = 255%Z).
Proof.
  intros color Pr Pg Pb Hr Hg Hb Hp.
  destruct (lighter_channel r percent Hr Hp) as (r' & _ & Er & Rr & R0 & R1).
  destruct (lighter_channel g percent Hg Hp) as (g' & _ & Eg & Rg & G0 & G1).
  destruct (lighter_channel b percent Hb Hp) as (b' & _ & Eb & Rb & B0 & B1).
  exists r', g', b'.
  assert (E : lightenColor host hex percent
              = String "#" (hex2 r' ++ hex2 g' ++ hex2 b')%string).
  { unfold lightenColor. fold color. rewrite Pr, Pg, Pb.
    unfold lightenChannel, toString16, hex2. now rewrite Er, Eg, Eb. }
  split; [exact E|]. split.
  - rewrite E. simpl. rewrite !length_append.
    rewrite !hex2_length by lia. reflexivity.
  - repeat split; try lia; auto.
Qed.

Lemma X19_lightenColor_valid_and_lighter_witness :
  lightenColor sampleHost "#8B4513" 50 = "#c5a289"%string
  /\ exists r' g' b' : Z,
       lightenColor sampleHost "#8B4513" 50
       = String "#" (hex2 r' ++ hex2 g' ++ hex2 b')%string
       /\ String.length (lightenColor sampleHost "#8B4513" 50) = 7%nat
       /\ (139 <= r' <= 255)%Z /\ (69 <= g' <= 255)%Z /\ (19 <= b' <= 255)%Z
       /\ (50 == 0 -> r' = 139%Z /\ g' = 69%Z /\ b' = 19%Z)
       /\ (50 == 100 -> r' = 255%Z /\ g' = 255%Z /\ b' = 255%Z).
Proof.
  split; [reflexivity|].
  apply (X19_lightenColor_valid_and_lighter sampleHost "#8B4513" 50
           139 69 19); try reflexivity; try lia; lra.
Defined.
